(** * A shallow embedding of the motivational Telegram bot (src/main.py)

    The module-level state of the program (the [USER_CONTEXT] dict, the
    [subscribers] table of the SQLite file) and its external collaborators
    (the Groq completion endpoint, the Telegram bot API, the random number
    generator and the logger) are threaded through a small state-and-exception
    monad.  Every call to a collaborator is written to a chronological trace
    together with its outcome, so that statements about "what was sent" and
    "what was logged" are statements about that trace. *)

From stdpp Require Import base option list gmap strings numbers sorting.
From Stdlib Require Import ZArith NArith Lia.
From Stdlib Require QArith_base.

Open Scope Z_scope.

(** ** Python text

    A Python [str] is a sequence of Unicode code points. *)

Module PyStr.

Definition pystr : Type := list N.

(** ASCII literals are written as Rocq strings and read code point by
    code point; the few non-ASCII characters of the source are written
    with their code point. *)
Definition lit (s : string) : pystr :=
  map Ascii.N_of_ascii (String.list_ascii_of_string s).

(** [str.isspace] on one code point, CPython's [_PyUnicode_IsWhitespace]. *)
Definition isspace (c : N) : bool :=
  (((0x09 <=? c) && (c <=? 0x0D)) || ((0x1C <=? c) && (c <=? 0x20))
   || (c =? 0x85) || (c =? 0xA0) || (c =? 0x1680)
   || ((0x2000 <=? c) && (c <=? 0x200A))
   || (c =? 0x2028) || (c =? 0x2029) || (c =? 0x202F) || (c =? 0x205F)
   || (c =? 0x3000))%N.

Fixpoint lstrip (s : pystr) : pystr :=
  match s with
  | c :: s' => if isspace c then lstrip s' else s
  | [] => []
  end.

Definition rstrip (s : pystr) : pystr := reverse (lstrip (reverse s)).

(** [s.strip()] with no argument. *)
Definition strip (s : pystr) : pystr := rstrip (lstrip s).

(** Truthiness of a [str]: the empty string is falsy. *)
Definition truthy (s : pystr) : bool :=
  match s with [] => false | _ => true end.

(** [l[start:]] for an integer [start], on any Python sequence. *)
Definition slice_from {A : Type} (start : Z) (l : list A) : list A :=
  let len := Z.of_nat (length l) in
  let i := if start <? 0 then Z.max 0 (len + start) else Z.min start len in
  drop (Z.to_nat i) l.

End PyStr.
Export PyStr.

(** ** Exceptions and results *)

(** The subclasses of [Exception] that the modelled code can meet.
    [External] stands for whatever a collaborator raises (a timeout, an
    HTTP error, a blocked bot, ...). *)
Inductive exn : Type :=
| IndexError
| AttributeError
| OverflowError
| UnicodeEncodeError
| External (what : string).

Inductive result (A : Type) : Type :=
| Return (a : A)
| Raise (e : exn).
Arguments Return {A} a.
Arguments Raise {A} e.

(** ** Data model *)

Inductive role : Type := System | User | Assistant.

#[global] Instance role_eq_dec : EqDecision role.
Proof. solve_decision. Defined.

(** An element of a history list: the tuple [(role, msg)]. *)
Definition turn : Type := role * pystr.

(** An element of the [messages] list: [{"role": ..., "content": ...}]. *)
Record message : Type := Message { msg_role : role; msg_content : pystr }.

(** The keyword arguments of [chat.completions.create]. *)
Record request : Type := Request {
  req_model : string;
  req_messages : list message;
  req_max_tokens : Z;
  req_temperature : QArith_base.Q
}.

(** The part of the provider's answer that the code reads:
    [resp.choices[i].message.content], which may be null. *)
Record chat_message : Type := ChatMessage { content : option pystr }.
Record choice : Type := Choice { message_of : chat_message }.
Record completion : Type := Completion { choices : list choice }.

(** A row of the table [subscribers (chat_id INTEGER PRIMARY KEY,
    first_name TEXT, timezone TEXT)]. *)
Record row : Type := Row { chat_id_of : Z; first_name_of : pystr; timezone_of : string }.

(** The observable effects, in the order they happen. *)
Inductive event : Type :=
| ProviderCall (req : request) (out : result completion)
| LogGroqError (e : exn)
| LogSending (n : nat)
| LogFailedToSend (chat_id : Z) (e : exn)
| SendMessage (chat_id : Z) (text : pystr) (out : result unit)
| ReplyText (chat_id : Z) (text : pystr) (out : result unit).

(** ** External collaborators

    Their behaviour is arbitrary: each is a transition on an opaque world. *)
Class Collaborators (World : Type) : Type := {
  completions_create : request -> World -> result completion * World;
  bot_send_message : Z -> pystr -> World -> result unit * World;
  message_reply_text : Z -> pystr -> World -> result unit * World;
  randbelow : nat -> World -> nat * World
}.

(** ** Program state *)

Record machine (World : Type) : Type := Machine {
  USER_CONTEXT : gmap Z (list turn);
  subscribers : list row;
  world : World;
  trace : list event
}.
Arguments Machine {World} _ _ _ _.
Arguments USER_CONTEXT {World} _.
Arguments subscribers {World} _.
Arguments world {World} _.
Arguments trace {World} _.

(** ** The monad of the program: state plus Python exceptions *)

Definition M (World A : Type) : Type := machine World -> result A * machine World.

Definition ret {World A} (a : A) : M World A := fun m => (Return a, m).

Definition raise {World A} (e : exn) : M World A := fun m => (Raise e, m).

Definition bind {World A B} (c : M World A) (k : A -> M World B) : M World B :=
  fun m => match c m with
           | (Return a, m') => k a m'
           | (Raise e, m') => (Raise e, m')
           end.

(** [try: body except Exception as e: handler e]. *)
Definition try_except {World A} (body : M World A) (handler : exn -> M World A)
  : M World A :=
  fun m => match body m with
           | (Return a, m') => (Return a, m')
           | (Raise e, m') => handler e m'
           end.

Declare Scope py_scope.
Delimit Scope py_scope with py.
Notation "'let!' x ':=' c 'in' k" := (bind c (fun x => k))
  (at level 10, x name, c at level 100, k at level 200) : py_scope.
Notation "'do!' c 'in' k" := (bind c (fun _ => k))
  (at level 10, c at level 100, k at level 200) : py_scope.
Open Scope py_scope.

Section Primitive.
Context {World : Type} `{Collaborators World}.

Definition emit (ev : event) : M World unit :=
  fun m => (Return tt,
            Machine (USER_CONTEXT m) (subscribers m) (world m) (trace m ++ [ev])).

(** [USER_CONTEXT.get(chat_id, [])] *)
Definition context_get (chat_id : Z) : M World (list turn) :=
  fun m => (Return (default [] (USER_CONTEXT m !! chat_id)), m).

(** [USER_CONTEXT[chat_id] = h] *)
Definition context_set (chat_id : Z) (h : list turn) : M World unit :=
  fun m => (Return tt,
            Machine (<[chat_id := h]> (USER_CONTEXT m)) (subscribers m)
                    (world m) (trace m)).

(** [groq_client.chat.completions.create(...)] *)
Definition chat_completions_create (req : request) : M World completion :=
  fun m => let '(out, w) := completions_create req (world m) in
           (out, Machine (USER_CONTEXT m) (subscribers m) w
                         (trace m ++ [ProviderCall req out])).

(** [context.bot.send_message(chat_id=..., text=...)] *)
Definition send_message (chat_id : Z) (text : pystr) : M World unit :=
  fun m => let '(out, w) := bot_send_message chat_id text (world m) in
           (out, Machine (USER_CONTEXT m) (subscribers m) w
                         (trace m ++ [SendMessage chat_id text out])).

(** [update.message.reply_text(text)] in the chat the update came from *)
Definition reply_text (chat_id : Z) (text : pystr) : M World unit :=
  fun m => let '(out, w) := message_reply_text chat_id text (world m) in
           (out, Machine (USER_CONTEXT m) (subscribers m) w
                         (trace m ++ [ReplyText chat_id text out])).

(** [random.choice(seq)]: the element at a random index below [len(seq)];
    [IndexError] on an empty sequence. *)
Definition random_choice {A} (seq : list A) : M World A :=
  match seq with
  | [] => raise IndexError
  | x :: _ =>
      fun m => let '(i, w) := randbelow (length seq) (world m) in
               (Return (nth (i mod length seq)%nat seq x),
                Machine (USER_CONTEXT m) (subscribers m) w (trace m))
  end.

(** [for x in seq: body x] *)
Fixpoint for_in {A} (seq : list A) (body : A -> M World unit) : M World unit :=
  match seq with
  | [] => ret tt
  | x :: rest => do! body x in for_in rest body
  end.

(** [seq[0]] *)
Definition item0 {A} (seq : list A) : M World A :=
  match seq with
  | x :: _ => ret x
  | [] => raise IndexError
  end.

(** [content.strip()], where [content] may be [None]. *)
Definition content_strip (c : option pystr) : M World pystr :=
  match c with
  | Some s => ret (strip s)
  | None => raise AttributeError
  end.

End Primitive.

(** ** The program *)

(** *** CONFIG and QUOTES *)

Definition TIMEZONE : string := "Asia/Kolkata".

Definition em_dash : N := 0x2014%N.

Definition QUOTES : list pystr := [
  lit "The only way to do great work is to love what you do. " ++ [em_dash] ++ lit " Steve Jobs";
  lit "Don't watch the clock; do what it does. Keep going. " ++ [em_dash] ++ lit " Sam Levenson";
  lit "Believe you can and you're halfway there. " ++ [em_dash] ++ lit " Theodore Roosevelt";
  lit "Start where you are. Use what you have. Do what you can. " ++ [em_dash] ++ lit " Arthur Ashe";
  lit "Do something today that your future self will thank you for.";
  lit "Small progress is still progress. Keep going.";
  lit "Difficult roads often lead to beautiful destinations.";
  lit "You are capable of amazing things.";
  lit "Mistakes are proof that you are trying.";
  lit "Focus on progress, not perfection."
].

(** *** DB helpers

    The table is kept in rowid order, which for an [INTEGER PRIMARY KEY] is
    the order of [chat_id]; a scan without [ORDER BY] walks it in that
    order.  Storage is taken to be available: I/O errors of SQLite are
    outside the model. *)

(** The Python ints that [sqlite3] binds to an SQLite INTEGER: the signed
    64-bit range.  Binding any other int raises [OverflowError]. *)
Definition sqlite_int (k : Z) : bool :=
  (- 2 ^ 63 <=? k) && (k <=? 2 ^ 63 - 1).

(** The strs that [sqlite3] binds to an SQLite TEXT: those that encode to
    UTF-8, which a str with a surrogate code point does not; binding such
    a str raises [UnicodeEncodeError]. *)
Definition is_surrogate (c : N) : bool := ((0xD800 <=? c) && (c <=? 0xDFFF))%N.

Definition utf8_encodable (s : pystr) : bool :=
  forallb (fun c => negb (is_surrogate c)) s.

Definition has_key (k : Z) (t : list row) : bool :=
  existsb (fun r => chat_id_of r =? k) t.

Fixpoint place_row (r : row) (t : list row) : list row :=
  match t with
  | [] => [r]
  | r' :: t' =>
      if chat_id_of r <? chat_id_of r' then r :: t else r' :: place_row r t'
  end.

(** [INSERT OR IGNORE INTO subscribers ... VALUES (?, ?, ?)] *)
Definition insert_or_ignore (r : row) (t : list row) : list row :=
  if has_key (chat_id_of r) t then t else place_row r t.

(** [DELETE FROM subscribers WHERE chat_id = ?] *)
Definition delete_where (k : Z) (t : list row) : list row :=
  filter (fun r => chat_id_of r ≠ k) t.

(** [SELECT chat_id FROM subscribers] *)
Definition select_chat_id (t : list row) : list Z := map chat_id_of t.

(** *** The Groq client *)

Record Groq : Type := MkGroq { api_key : string }.

Definition MAX_HISTORY : Z := 5.

Definition SYSTEM_PROMPT : pystr :=
  lit "You are a kind motivational assistant. "
  ++ lit "Reply in 2-3 sentences, always positive, encouraging, and supportive. "
  ++ lit "If user is stressed, give calming and simple tips.".

(** The reply of [chat_with_groq] when there is no client. *)
Definition REPLY_UNAVAILABLE : pystr :=
  lit "Sorry, my AI chat service is currently unavailable. But remember: You've got this!".

(** The reply of [chat_with_groq] when the provider call raises. *)
Definition REPLY_ON_ERROR : pystr :=
  lit "I'm here for you " ++ [0x1F499%N]
  ++ lit ". Take a deep breath and remember you're doing your best.".

Section Program.
Context {World : Type} `{Collaborators World}.

(** The value of the environment variable, [None] when it is not set. *)
Variable GROQ_API_KEY : option string.

(** [if GROQ_API_KEY: groq_client = Groq(api_key=GROQ_API_KEY)
     else: groq_client = None] *)
Definition groq_client : option Groq :=
  match GROQ_API_KEY with
  | Some k => if decide (k = "") then None else Some (MkGroq k)
  | None => None
  end.

(** The callers leave [tz] out and Python fills in [TIMEZONE].
    [c.execute] binds the parameters in order before it runs the
    statement: a [chat_id] that is no SQLite INTEGER raises, then a
    [first_name] that does not encode raises, and in both cases nothing is
    written. *)
Definition add_subscriber (chat_id : Z) (first_name : pystr) (tz : string)
  : M World unit :=
  if negb (sqlite_int chat_id) then raise OverflowError
  else if negb (utf8_encodable first_name) then raise UnicodeEncodeError
  else
    fun m => (Return tt,
              Machine (USER_CONTEXT m)
                      (insert_or_ignore (Row chat_id first_name tz) (subscribers m))
                      (world m) (trace m)).

(** Here too the parameter is bound first: a [chat_id] that is no SQLite
    INTEGER raises and nothing is deleted. *)
Definition remove_subscriber (chat_id : Z) : M World unit :=
  if negb (sqlite_int chat_id) then raise OverflowError
  else
    fun m => (Return tt,
              Machine (USER_CONTEXT m) (delete_where chat_id (subscribers m))
                      (world m) (trace m)).

Definition get_subscribers : M World (list Z) :=
  fun m => (Return (select_chat_id (subscribers m)), m).

(** The [messages] list as the code builds it: the system message, then
    one [append] per stored turn, then the [append] of the new input. *)
Definition build_messages (history : list turn) (user_message : pystr)
  : list message :=
  let messages := [Message System SYSTEM_PROMPT] in
  let messages :=
    fold_left (fun acc '(role, msg) => acc ++ [Message role msg]) history messages in
  messages ++ [Message User user_message].

(** In the source [history] is the list object stored in the dict (when
    there is one) and the two [append]s change it in place; the dict entry
    is then replaced by a fresh slice, and nothing else holds the old
    object, so the values below are all that can be observed. *)
Definition chat_with_groq (chat_id : Z) (user_message : pystr) : M World pystr :=
  match groq_client with
  | None => ret REPLY_UNAVAILABLE
  | Some _ =>
      let! history := context_get chat_id in
      let messages := build_messages history user_message in
      let! reply :=
        try_except
          (let! resp := chat_completions_create
                          (Request "llama-3.1-8b-instant" messages 120
                                   (QArith_base.Qmake 7 10)) in
           let! first := item0 (choices resp) in
           content_strip (content (message_of first)))
          (fun e => do! emit (LogGroqError e) in ret REPLY_ON_ERROR) in
      let history := history ++ [(User, user_message)] in
      let history := history ++ [(Assistant, reply)] in
      do! context_set chat_id (slice_from (- MAX_HISTORY * 2) history) in
      ret reply
  end.

(** [text_handler], for an update in chat [chat_id] whose message text is
    [text] ([None] when the message has no text). *)
Definition text_handler (chat_id : Z) (text : option pystr) : M World unit :=
  let text := strip (match text with
                     | Some s => if truthy s then s else []
                     | None => []
                     end) in
  if negb (truthy text) then ret tt
  else
    let! reply := chat_with_groq chat_id text in
    reply_text chat_id reply.

Definition daily_message (quote : pystr) : pystr :=
  lit "Good morning! " ++ [0x1F31E%N; 10%N; 10%N] ++ quote
  ++ [10%N; 10%N] ++ lit "Have a great day! " ++ [0x1F4AA%N].

Definition send_daily_messages : M World unit :=
  let! quote := random_choice QUOTES in
  let message := daily_message quote in
  let! subs := get_subscribers in
  do! emit (LogSending (length subs)) in
  for_in subs (fun chat_id =>
    try_except (send_message chat_id message)
               (fun e => emit (LogFailedToSend chat_id e))).

End Program.

(** *** The schedule

    [app.job_queue.run_daily(send_daily_messages,
       time=datetime.time(9, 0, tzinfo=ZoneInfo(TIMEZONE)))]:
    the time of day and the zone are all that [main] fixes.  When the job
    fires is decided by the job queue of the bot library, on the wall
    clock. *)
Record time_of_day : Type := TimeOfDay { hour : Z; minute : Z; tzinfo : string }.

Definition DAILY_TIME : time_of_day := TimeOfDay 9 0 TIMEZONE.

(** ** A concrete set of collaborators, for running the program

    The world is a call counter.  The provider answers with the last
    message of the request padded with blanks, fails on the input "boom",
    answers without choices on "void" and with a null content on "null";
    delivery to chat 20 is refused. *)
Module Demo.

Definition last_content (req : request) : pystr :=
  match list.last (req_messages req) with
  | Some msg => msg_content msg
  | None => []
  end.

Definition blank : N := 32%N.

Definition demo_create (req : request) (w : nat) : result completion * nat :=
  let text := last_content req in
  (if decide (text = lit "boom") then Raise (External "timeout")
   else if decide (text = lit "void") then Return (Completion [])
   else if decide (text = lit "null") then Return (Completion [Choice (ChatMessage None)])
   else Return (Completion [Choice (ChatMessage (Some ([blank; 10%N] ++ lit "re: " ++ text ++ [blank])))]),
   S w).

Definition demo_send (chat_id : Z) (text : pystr) (w : nat) : result unit * nat :=
  (if chat_id =? 20 then Raise (External "blocked") else Return tt, S w).

#[export] Instance demo : Collaborators nat := {|
  completions_create := demo_create;
  bot_send_message := demo_send;
  message_reply_text := fun _ _ w => (Return tt, S w);
  randbelow := fun _ w => (w, S w)
|}.

(** The state at start-up: an empty [USER_CONTEXT], an empty table. *)
Definition start : machine nat := Machine ∅ [] 0%nat [].

Definition key : option string := Some "gsk_demo".

(** The client that [groq_client] builds from [key]. *)
Definition demo_client : Groq := MkGroq "gsk_demo".

End Demo.

(** ** Properties *)

(** [get_history] of the specification: what [USER_CONTEXT.get(chat_id, [])]
    reads. *)
Definition get_history {World} (m : machine World) (chat_id : Z) : list turn :=
  default [] (USER_CONTEXT m !! chat_id).

(** The last [n] elements of a list. *)
Definition last_n {A} (n : nat) (l : list A) : list A := drop (length l - n) l.

(** The number of turns a history keeps: [MAX_HISTORY*2]. *)
Definition kept_turns : nat := Z.to_nat (MAX_HISTORY * 2).

(** *** One call of [chat_with_groq] *)

(** The request of the specification: the fixed system instruction, the
    stored turns oldest first with their roles, the new input as the last,
    user-role message. *)
Definition spec_messages (history : list turn) (user_message : pystr) : list message :=
  Message System SYSTEM_PROMPT
  :: map (fun t => Message t.1 t.2) history
  ++ [Message User user_message].

Definition groq_request (history : list turn) (user_message : pystr) : request :=
  Request "llama-3.1-8b-instant" (spec_messages history user_message) 120
          (QArith_base.Qmake 7 10).

(** What the [try] block makes of the provider's outcome: the stripped
    content of the first choice, or the exception that escapes the block. *)
Definition read_reply (out : result completion) : result pystr :=
  match out with
  | Return (Completion (Choice (ChatMessage (Some s)) :: _)) => Return (strip s)
  | Return (Completion (Choice (ChatMessage None) :: _)) => Raise AttributeError
  | Return (Completion []) => Raise IndexError
  | Raise e => Raise e
  end.

Definition reply_of (out : result completion) : pystr :=
  match read_reply out with
  | Return s => s
  | Raise _ => REPLY_ON_ERROR
  end.

Definition error_log (out : result completion) : list event :=
  match read_reply out with
  | Return _ => []
  | Raise e => [LogGroqError e]
  end.


(** *** Sequences of exchanges *)

(** One exchange: the input a chat sent and the reply it got. *)
Record exchange : Type := Exchange { ex_chat : Z; ex_input : pystr; ex_reply : pystr }.

Definition exchange_turns (e : exchange) : list turn :=
  [(User, ex_input e); (Assistant, ex_reply e)].

Definition exchanges_of (chat_id : Z) (log : list exchange) : list exchange :=
  filter (fun e => ex_chat e = chat_id) log.

Section Driver.
Context {World : Type} `{Collaborators World}.
Variable GROQ_API_KEY : option string.

(** The inputs [calls] processed through [chat_with_groq] one after the
    other; the result lists the exchanges in the order they took place. *)
Fixpoint chat_all (calls : list (Z * pystr)) : M World (list exchange) :=
  match calls with
  | [] => ret []
  | (chat_id, user_message) :: rest =>
      let! reply := chat_with_groq GROQ_API_KEY chat_id user_message in
      let! log := chat_all rest in
      ret (Exchange chat_id user_message reply :: log)
  end.

(** After the calls, the history of [chat_id] is made of its most recent
    [MAX_HISTORY] exchanges whenever it had more than that many. *)
Definition retains_recent_exchanges (m : machine World) (calls : list (Z * pystr))
    (chat_id : Z) : Prop :=
  exists log m',
    chat_all calls m = (Return log, m')
    /\ map (fun e => (ex_chat e, ex_input e)) log = calls
    /\ (MAX_HISTORY < Z.of_nat (length (exchanges_of chat_id log)) ->
        get_history m' chat_id
        = flat_map exchange_turns
            (last_n (Z.to_nat MAX_HISTORY) (exchanges_of chat_id log))).


(** The call returns the text [t] on one of the two fallback paths. *)
Definition falls_back_to (t : pystr) (chat_id : Z) (user_message : pystr)
    (m : machine World) : Prop :=
  (groq_client GROQ_API_KEY = None
   \/ exists e, read_reply (completions_create
                             (groq_request (get_history m chat_id) user_message)
                             (world m)).1 = Raise e) ->
  (chat_with_groq GROQ_API_KEY chat_id user_message m).1 = Return t.

End Driver.

(** *** The pairing invariant of a history *)

Fixpoint paired (h : list turn) : bool :=
  match h with
  | [] => true
  | (User, _) :: (Assistant, _) :: rest => paired rest
  | _ => false
  end.

Definition history_ok (h : list turn) : bool :=
  paired h && Nat.even (length h) && (Z.of_nat (length h) <=? MAX_HISTORY * 2).

Definition buffer_ok {World} (m : machine World) : Prop :=
  forall chat_id h, USER_CONTEXT m !! chat_id = Some h -> history_ok h = true.

(** *** The Subscriber Store as a set *)

Inductive store_op : Type :=
| Subscribe (chat_id : Z) (first_name : pystr)
| Unsubscribe (chat_id : Z).

Section StoreOps.
Context {World : Type} `{Collaborators World}.

Definition run_op (op : store_op) : M World unit :=
  match op with
  | Subscribe chat_id first_name => add_subscriber chat_id first_name TIMEZONE
  | Unsubscribe chat_id => remove_subscriber chat_id
  end.

Definition run_ops (ops : list store_op) : M World unit := for_in ops run_op.

End StoreOps.


(** The membership of the table. *)
Definition members (t : list row) : gset Z := list_to_set (select_chat_id t).




(** *** Reading a broadcast cycle off the trace *)

(** The delivery attempts, in order. *)
Definition attempts (tr : list event) : list (Z * pystr) :=
  omap (fun ev => match ev with
                  | SendMessage chat_id text _ => Some (chat_id, text)
                  | _ => None
                  end) tr.

(** The attempts that failed, with the exception. *)
Definition failures (tr : list event) : list (Z * exn) :=
  omap (fun ev => match ev with
                  | SendMessage chat_id _ (Raise e) => Some (chat_id, e)
                  | _ => None
                  end) tr.

(** The warnings "Failed to send to <id>: <exception>". *)
Definition warnings (tr : list event) : list (Z * exn) :=
  omap (fun ev => match ev with
                  | LogFailedToSend chat_id e => Some (chat_id, e)
                  | _ => None
                  end) tr.

(** The counts that were logged: the [%d] of "Sending daily message to %d
    subscribers" is the only number the job ever logs. *)
Definition logged_counts (tr : list event) : list nat :=
  omap (fun ev => match ev with
                  | LogSending n => Some n
                  | _ => None
                  end) tr.

(** A cycle whose events are [tr] reported the number of failed deliveries.
    The job returns [None], so a count can only have been logged. *)
Definition reports_failure_count (tr : list event) : Prop :=
  length (failures tr) ∈ logged_counts tr.

Module DemoRuns.
Import Demo.

Definition hi : pystr := lit "hi".

(** Seven inputs of chat 1, numbered from 1. *)
Definition seven_calls : list (Z * pystr) :=
  map (fun k => (1, lit "msg " ++ [N.of_nat (48 + k)])) (seq 1 7).

(** A start-up state with the subscribers 10, 20 and 30. *)
Definition three_subscribers : machine nat :=
  (run_ops [Subscribe 30 (lit "C"); Subscribe 10 (lit "A"); Subscribe 20 (lit "B")]
           start).2.

End DemoRuns.

(** ** The handlers and the routing of [main] *)

(** What the handlers read of an [Update]: [update.effective_chat.id],
    [update.effective_user.first_name] and [update.message.text]. *)
Record update : Type := Update {
  effective_chat_id : Z;
  user_first_name : pystr;
  message_text : option pystr
}.

Definition newline : N := 10%N.

(** The text of [start]: [f"Hi {user.first_name}! ..."]. *)
Definition start_text (first_name : pystr) : pystr :=
  lit "Hi " ++ first_name ++ lit "! " ++ [0x1F44B%N; newline; newline]
  ++ lit "I'm your Motivational Bot." ++ [newline; newline]
  ++ lit "Commands:" ++ [newline]
  ++ lit "/subscribe - Receive daily motivational message (every morning)" ++ [newline]
  ++ lit "/unsubscribe - Stop daily messages" ++ [newline]
  ++ lit "/quote - Get a random motivational quote now" ++ [newline]
  ++ lit "/help - Show this message" ++ [newline; newline]
  ++ lit "You can also just chat with me if you're stressed or need motivation.".

Definition SUBSCRIBED_TEXT : pystr :=
  lit "You're subscribed " ++ [0x2705%N; newline]
  ++ lit "You'll get a motivational message every day at 9 AM IST." ++ [newline]
  ++ lit "Use /unsubscribe to stop.".

Definition UNSUBSCRIBED_TEXT : pystr :=
  lit "You've been unsubscribed. Use /subscribe to join again.".

(** [f"<star> {quote}"] of [quote_cmd]. *)
Definition quote_text (quote : pystr) : pystr := [0x1F31F%N; 32%N] ++ quote.

(** The handler [main] registers for an update: one [CommandHandler] per
    command, and the [MessageHandler] for text that is not a command. *)
Inductive route : Type :=
| ToStart | ToHelp | ToSubscribe | ToUnsubscribe | ToQuote | ToText.

(** What the process reacts to: an update routed to its handler, or the
    daily job coming due. *)
Inductive stimulus : Type :=
| Incoming (r : route) (u : update)
| DailyJob.

Section Handlers.
Context {World : Type} `{Collaborators World}.
Variable GROQ_API_KEY : option string.

Definition start (u : update) : M World unit :=
  reply_text (effective_chat_id u) (start_text (user_first_name u)).

Definition help_cmd (u : update) : M World unit := start u.

Definition subscribe (u : update) : M World unit :=
  let chat_id := effective_chat_id u in
  let first_name := if truthy (user_first_name u) then user_first_name u else [] in
  do! add_subscriber chat_id first_name TIMEZONE in
  reply_text chat_id SUBSCRIBED_TEXT.

Definition unsubscribe (u : update) : M World unit :=
  let chat_id := effective_chat_id u in
  do! remove_subscriber chat_id in
  reply_text chat_id UNSUBSCRIBED_TEXT.

Definition quote_cmd (u : update) : M World unit :=
  let! quote := random_choice QUOTES in
  reply_text (effective_chat_id u) (quote_text quote).

Definition dispatch (r : route) (u : update) : M World unit :=
  match r with
  | ToStart => start u
  | ToHelp => help_cmd u
  | ToSubscribe => subscribe u
  | ToUnsubscribe => unsubscribe u
  | ToQuote => quote_cmd u
  | ToText => text_handler GROQ_API_KEY (effective_chat_id u) (message_text u)
  end.

Definition react (s : stimulus) : M World unit :=
  match s with
  | Incoming r u => dispatch r u
  | DailyJob => send_daily_messages
  end.

(** The state after a sequence of stimuli, taken one at a time.  A handler
    or a job that raises is reported to [error_handler], which only logs,
    and the process goes on from the state the exception left. *)
Definition run_steps (ss : list stimulus) (m : machine World) : machine World :=
  fold_left (fun m s => (react s m).2) ss m.

End Handlers.

(** *** More readings of the trace *)

(** The requests sent to the provider. *)
Definition provider_calls (tr : list event) : list request :=
  omap (fun ev => match ev with
                  | ProviderCall req _ => Some req
                  | _ => None
                  end) tr.

(** The replies attempted, with the chat they went to. *)
Definition replies (tr : list event) : list (Z * pystr) :=
  omap (fun ev => match ev with
                  | ReplyText chat_id text _ => Some (chat_id, text)
                  | _ => None
                  end) tr.

(** The "Groq error" lines of the log. *)
Definition groq_errors (tr : list event) : list exn :=
  omap (fun ev => match ev with
                  | LogGroqError e => Some e
                  | _ => None
                  end) tr.

(** The table holds its rows in strictly increasing order of [chat_id]. *)
Definition table_ok (t : list row) : Prop :=
  StronglySorted Z.lt (select_chat_id t).

(** The events a computation added to the trace, between the state it
    started in and the state it left. *)
Definition new_events {World} (m m' : machine World) : list event :=
  drop (length (trace m)) (trace m').

(** ** A second set of collaborators: replies to chat 7 are refused

    The world is stateless; the provider echoes as in [Demo]. *)
Module Flaky.

Definition flaky_reply (chat_id : Z) (text : pystr) (w : unit) : result unit * unit :=
  (if chat_id =? 7 then Raise (External "forbidden") else Return tt, w).

#[export] Instance flaky : Collaborators unit := {|
  completions_create := fun req w => ((Demo.demo_create req 0%nat).1, w);
  bot_send_message := fun _ _ w => (Return tt, w);
  message_reply_text := flaky_reply;
  randbelow := fun _ w => (3%nat, w)
|}.

Definition start : machine unit := Machine ∅ [] tt [].

(** An update of chat 7 with text around which there is white space. *)
Definition from_ann : update := Update 7 (lit "Ann") (Some (lit "  hi  ")).

(** An update of chat 8 whose text is white space only. *)
Definition blank_from_bob : update := Update 8 (lit "Bob") (Some [32%N; 9%N; 10%N]).

(** A day in the life of the bot. *)
Definition a_day : list stimulus :=
  [Incoming ToStart from_ann; Incoming ToSubscribe from_ann;
   Incoming ToText from_ann; Incoming ToSubscribe blank_from_bob;
   Incoming ToText blank_from_bob; DailyJob; Incoming ToQuote from_ann;
   Incoming ToSubscribe from_ann; Incoming ToUnsubscribe blank_from_bob;
   Incoming ToHelp blank_from_bob].

End Flaky.

(** ** Facts about slices and the last elements of a list *)

Section SliceFacts.
Context {A : Type}.
Implicit Types l k : list A.

Lemma slice_from_neg (n : nat) l :
  (0 < n)%nat -> slice_from (- Z.of_nat n) l = last_n n l.
Proof.
  intros Hn. unfold slice_from, last_n.
  destruct (Z.ltb_spec (- Z.of_nat n) 0) as [_|]; [|lia].
  f_equal. lia.
Qed.

Lemma slice_history l : slice_from (- MAX_HISTORY * 2) l = last_n kept_turns l.
Proof. apply (slice_from_neg 10). lia. Qed.

Lemma last_n_length n l : length (last_n n l) = (length l `min` n)%nat.
Proof. unfold last_n. rewrite length_drop. lia. Qed.

Lemma last_n_all n l : (length l <= n)%nat -> last_n n l = l.
Proof.
  intros Hle. unfold last_n.
  replace (length l - n)%nat with 0%nat by lia. reflexivity.
Qed.

Lemma last_n_app_long n l k : (n <= length k)%nat -> last_n n (l ++ k) = last_n n k.
Proof.
  intros Hle. unfold last_n. rewrite length_app.
  replace (length l + length k - n)%nat with (length l + (length k - n))%nat by lia.
  apply drop_app_add.
Qed.

Lemma last_n_app_short n l k :
  (length k <= n)%nat -> last_n n (l ++ k) = last_n (n - length k) l ++ k.
Proof.
  intros Hle. unfold last_n. rewrite length_app, drop_app.
  replace (length l + length k - n)%nat with (length l - (n - length k))%nat by lia.
  replace (length l - (n - length k) - length l)%nat with 0%nat by lia.
  reflexivity.
Qed.

(** Truncating, appending and truncating again is appending and
    truncating once. *)
Lemma last_n_absorb n l k : last_n n (last_n n l ++ k) = last_n n (l ++ k).
Proof.
  destruct (decide (length k <= n)%nat) as [Hle|Hgt].
  - rewrite !last_n_app_short by done. f_equal.
    unfold last_n. rewrite drop_drop, length_drop. f_equal. lia.
  - rewrite !last_n_app_long by lia. reflexivity.
Qed.

End SliceFacts.

Section ReplyGenerator.
Context {World : Type} `{Collaborators World}.
Implicit Types (m : machine World) (key : option string).

Lemma build_messages_loop (history : list turn) (acc : list message) :
  fold_left (fun acc '(role, msg) => acc ++ [Message role msg]) history acc
  = acc ++ map (fun t => Message t.1 t.2) history.
Proof.
  revert acc. induction history as [|[r s] history IH]; intros acc; simpl.
  - by rewrite app_nil_r.
  - rewrite IH, <- app_assoc. reflexivity.
Qed.

Lemma build_messages_spec history user_message :
  build_messages history user_message = spec_messages history user_message.
Proof.
  unfold build_messages, spec_messages. rewrite build_messages_loop. reflexivity.
Qed.

Lemma chat_with_groq_unconfigured key chat_id user_message m :
  groq_client key = None ->
  chat_with_groq key chat_id user_message m = (Return REPLY_UNAVAILABLE, m).
Proof. intros Hk. unfold chat_with_groq. rewrite Hk. reflexivity. Qed.

(** With a client, the call always returns, and its whole effect is
    determined by the provider's outcome on the request. *)
Lemma chat_with_groq_configured key g chat_id user_message m :
  groq_client key = Some g ->
  let h := get_history m chat_id in
  let req := groq_request h user_message in
  let out := (completions_create req (world m)).1 in
  chat_with_groq key chat_id user_message m =
    (Return (reply_of out),
     Machine (<[chat_id := last_n kept_turns
                              (h ++ [(User, user_message); (Assistant, reply_of out)])]>
                (USER_CONTEXT m))
             (subscribers m)
             (completions_create req (world m)).2
             (trace m ++ ProviderCall req out :: error_log out)).
Proof.
  intros Hk h req out. unfold chat_with_groq. rewrite Hk.
  unfold bind, try_except, context_get, chat_completions_create.
  rewrite build_messages_spec. fold (get_history m chat_id). fold h.
  fold (groq_request h user_message). fold req. subst out.
  destruct (completions_create req (world m)) as [out w].
  destruct out as [[[|[[[s|]]] rest]]|e];
    cbn -[slice_from MAX_HISTORY Z.mul Z.opp last_n kept_turns];
    rewrite slice_history, <- !app_assoc; reflexivity.
Qed.

(** Whatever the configuration and the provider do, the call returns. *)
Lemma chat_with_groq_returns key chat_id user_message m :
  exists reply, (chat_with_groq key chat_id user_message m).1 = Return reply.
Proof.
  destruct (groq_client key) as [g|] eqn:Hk.
  - rewrite (chat_with_groq_configured key g) by done. eauto.
  - rewrite chat_with_groq_unconfigured by done. eauto.
Qed.


End ReplyGenerator.

(** *** [str.strip] removes exactly the surrounding white space *)

Lemma lstrip_spec (s : pystr) :
  exists pre, s = pre ++ lstrip s /\ forallb isspace pre = true
              /\ (forall c, head (lstrip s) = Some c -> isspace c = false).
Proof.
  induction s as [|c s (pre & Hs & Hpre & Hhd)]; simpl.
  - exists []. repeat split. discriminate.
  - destruct (isspace c) eqn:Hc.
    + exists (c :: pre). simpl. rewrite Hc, Hpre. repeat split; [congruence|done].
    + exists []. repeat split. simpl. congruence.
Qed.

Lemma strip_spec (s : pystr) :
  exists pre post,
    s = pre ++ strip s ++ post
    /\ forallb isspace pre = true /\ forallb isspace post = true
    /\ (forall c, head (strip s) = Some c -> isspace c = false)
    /\ (forall c, list.last (strip s) = Some c -> isspace c = false).
Proof.
  destruct (lstrip_spec s) as (pre & Hs & Hpre & Hhd).
  destruct (lstrip_spec (reverse (lstrip s))) as (tl & Hr & Htl & Hlast).
  unfold strip, rstrip.
  set (mid := reverse (lstrip (reverse (lstrip s)))).
  assert (Hmid : lstrip s = mid ++ reverse tl).
  { subst mid. rewrite <- reverse_app, <- Hr, reverse_involutive. reflexivity. }
  exists pre, (reverse tl). repeat split.
  - rewrite <- Hmid. exact Hs.
  - exact Hpre.
  - rewrite forallb_forall in Htl |- *. intros x Hx. apply Htl.
    apply list_elem_of_In. apply list_elem_of_In in Hx.
    by rewrite elem_of_reverse in Hx.
  - intros c Hc. apply Hhd. rewrite Hmid.
    destruct mid; [discriminate|]. exact Hc.
  - intros c Hc. apply Hlast. subst mid. rewrite last_reverse in Hc. exact Hc.
Qed.

(** *** The claims about one call *)

Section GeneratorClaims.
Context {World : Type} `{Collaborators World}.
Implicit Types (m : machine World) (key : option string).

(** C2 (as amended).  Whenever the provider is unconfigured, or the
    provider call raises or its answer cannot be read, [chat_with_groq]
    returns normally, with a fixed pre-authored text that depends only on
    which of the two paths was taken: [REPLY_UNAVAILABLE] without a
    client, [REPLY_ON_ERROR] after a failed call.  The error is never
    propagated to the caller. *)
Theorem chat_with_groq_fallback_reply key chat_id user_message m :
  (groq_client key = None ->
     (chat_with_groq key chat_id user_message m).1 = Return REPLY_UNAVAILABLE)
  /\ (forall g e,
        groq_client key = Some g ->
        read_reply (completions_create
                      (groq_request (get_history m chat_id) user_message)
                      (world m)).1 = Raise e ->
        (chat_with_groq key chat_id user_message m).1 = Return REPLY_ON_ERROR).
Proof.
  split.
  - intros Hk. by rewrite chat_with_groq_unconfigured.
  - intros g e Hk Hout. rewrite (chat_with_groq_configured key g) by done.
    simpl. unfold reply_of. by rewrite Hout.
Qed.


(** C7.  On the successful provider path the request sent to the provider
    carries, as its messages, the fixed system instruction first, then the
    recipient's stored turns oldest first with their stored roles, then
    the new input as the final user-role message; exactly one provider
    call is made; and the returned reply is the content of the provider's
    first choice without its surrounding white space. *)
Theorem chat_with_groq_request_and_reply key g chat_id user_message m s rest :
  groq_client key = Some g ->
  let req :=
    Request "llama-3.1-8b-instant"
            (Message System SYSTEM_PROMPT
             :: map (fun t => Message t.1 t.2) (get_history m chat_id)
             ++ [Message User user_message])
            120 (QArith_base.Qmake 7 10) in
  let answer := Completion (Choice (ChatMessage (Some s)) :: rest) in
  (completions_create req (world m)).1 = Return answer ->
  exists reply,
    (chat_with_groq key chat_id user_message m).1 = Return reply
    /\ trace (chat_with_groq key chat_id user_message m).2
       = trace m ++ [ProviderCall req (Return answer)]
    /\ reply = strip s
    /\ exists pre post,
         s = pre ++ reply ++ post
         /\ forallb isspace pre = true /\ forallb isspace post = true
         /\ (forall c, head reply = Some c -> isspace c = false)
         /\ (forall c, list.last reply = Some c -> isspace c = false).
Proof.
  intros Hk req answer Hout.
  rewrite (chat_with_groq_configured key g) by done.
  change (groq_request (get_history m chat_id) user_message) with req.
  rewrite Hout. simpl. exists (strip s).
  repeat split; try reflexivity. apply strip_spec.
Qed.

(** C10.  The two fallback paths treat the Context Buffer differently.
    Without a client the call returns its fallback text and the whole
    state, the recipient's history included, is unchanged.  With a client
    whose call raises (or whose answer cannot be read) the call returns
    the other fallback text and the exchange (user input, fallback reply)
    is appended to the recipient's history and cut to the last
    [MAX_HISTORY*2] turns, which is what the successful path does with the
    provider's reply. *)
Theorem fallback_paths_differ_on_history key chat_id user_message m :
  let out := (completions_create
                (groq_request (get_history m chat_id) user_message) (world m)).1 in
  (groq_client key = None ->
     chat_with_groq key chat_id user_message m = (Return REPLY_UNAVAILABLE, m))
  /\ (forall g e,
        groq_client key = Some g -> read_reply out = Raise e ->
        (chat_with_groq key chat_id user_message m).1 = Return REPLY_ON_ERROR
        /\ get_history (chat_with_groq key chat_id user_message m).2 chat_id
           = slice_from (- MAX_HISTORY * 2)
               (get_history m chat_id
                ++ [(User, user_message); (Assistant, REPLY_ON_ERROR)]))
  /\ (forall g reply,
        groq_client key = Some g -> read_reply out = Return reply ->
        (chat_with_groq key chat_id user_message m).1 = Return reply
        /\ get_history (chat_with_groq key chat_id user_message m).2 chat_id
           = slice_from (- MAX_HISTORY * 2)
               (get_history m chat_id
                ++ [(User, user_message); (Assistant, reply)])).
Proof.
  intros out. split; [|split].
  - intros Hk. by apply chat_with_groq_unconfigured.
  - intros g e Hk Hout. rewrite (chat_with_groq_configured key g) by done.
    fold out. unfold reply_of. rewrite Hout, slice_history. split; [done|].
    unfold get_history at 1. simpl. by rewrite lookup_insert_eq.
  - intros g reply Hk Hout. rewrite (chat_with_groq_configured key g) by done.
    fold out. unfold reply_of. rewrite Hout, slice_history. split; [done|].
    unfold get_history at 1. simpl. by rewrite lookup_insert_eq.
Qed.

End GeneratorClaims.

(** *** Whole pairs *)

Section Pairing.
Implicit Types h k : list turn.

(** Induction two turns at a time. *)
Lemma paired_ind (P : list turn -> Prop) :
  P [] ->
  (forall u a rest, paired rest = true -> P rest ->
                    P ((User, u) :: (Assistant, a) :: rest)) ->
  forall h, paired h = true -> P h.
Proof.
  intros Hnil Hstep h. remember (length h) as n eqn:Hn.
  revert h Hn. induction n as [n IH] using lt_wf_ind. intros h Hn Hp.
  destruct h as [|[[] u] [|[[] a] rest]]; try discriminate; [exact Hnil|].
  simpl in Hp. apply Hstep; [exact Hp|].
  apply (IH (length rest)); [simpl in Hn; lia|reflexivity|exact Hp].
Qed.

Lemma paired_even h : paired h = true -> Nat.even (length h) = true.
Proof. revert h. apply paired_ind; done. Qed.

Lemma paired_app h k : paired h = true -> paired k = true -> paired (h ++ k) = true.
Proof. intros Hh Hk. revert h Hh. apply paired_ind; done. Qed.

Lemma paired_drop_even j h : paired h = true -> paired (drop (2 * j) h) = true.
Proof.
  intros Hp. revert j. revert h Hp. apply (paired_ind (fun h => forall j, _)).
  - intros j. by rewrite drop_nil.
  - intros u a rest Hrest IH j. destruct j as [|j]; [by simpl; rewrite Hrest|].
    replace (2 * S j)%nat with (S (S (2 * j))) by lia. simpl. apply IH.
Qed.

(** Cutting a history made of whole pairs to its last [MAX_HISTORY*2]
    turns leaves whole pairs. *)
Lemma paired_slice h :
  paired h = true -> paired (slice_from (- MAX_HISTORY * 2) h) = true.
Proof.
  intros Hp. rewrite slice_history. unfold last_n.
  pose proof (paired_even h Hp) as He. apply Nat.even_spec in He as [j Hj].
  assert (Hcut : (length h - kept_turns = 2 * (j - 5))%nat).
  { change kept_turns with 10%nat. lia. }
  rewrite Hcut. by apply paired_drop_even.
Qed.

Lemma history_ok_slice h u a :
  paired h = true ->
  history_ok (slice_from (- MAX_HISTORY * 2) (h ++ [(User, u); (Assistant, a)])) = true.
Proof.
  intros Hp.
  assert (Hq : paired (slice_from (- MAX_HISTORY * 2)
                         (h ++ [(User, u); (Assistant, a)])) = true).
  { apply paired_slice, paired_app; done. }
  unfold history_ok. rewrite Hq, (paired_even _ Hq). simpl.
  apply Z.leb_le. rewrite slice_history, last_n_length.
  change kept_turns with 10%nat. unfold MAX_HISTORY. lia.
Qed.

End Pairing.

Section BufferInvariant.
Context {World : Type} `{Collaborators World}.
Implicit Types (m : machine World) (key : option string).

Lemma history_ok_get m chat_id :
  buffer_ok m -> history_ok (get_history m chat_id) = true.
Proof.
  intros Hm. unfold get_history.
  destruct (USER_CONTEXT m !! chat_id) as [h|] eqn:Hh; simpl; [by eapply Hm|done].
Qed.

(** C6.  The Context Buffer invariant.  It holds of the empty buffer the
    program starts with, and every call of [chat_with_groq], whatever the
    configuration and the provider's outcome, preserves it: every stored
    history is made of whole (user, assistant) pairs in alternating order
    with the user turn first, has even length, and has at most
    [MAX_HISTORY*2] turns.  The cut to the last [MAX_HISTORY*2] turns never
    splits a pair: a history of whole pairs, extended by a (user,
    assistant) pair and cut, is again made of whole pairs. *)
Theorem context_buffer_invariant :
  (forall subs (w : World) tr, buffer_ok (Machine ∅ subs w tr))
  /\ (forall key chat_id user_message m,
        buffer_ok m ->
        buffer_ok (chat_with_groq key chat_id user_message m).2)
  /\ (forall h u a,
        paired h = true ->
        paired (slice_from (- MAX_HISTORY * 2)
                  (h ++ [(User, u); (Assistant, a)])) = true).
Proof.
  split; [|split].
  - intros subs w tr chat_id h Hh. simpl in Hh. by rewrite lookup_empty in Hh.
  - intros key chat_id user_message m Hm.
    destruct (groq_client key) as [g|] eqn:Hk.
    + rewrite (chat_with_groq_configured key g) by done.
      intros id h. simpl. rewrite <- slice_history.
      destruct (decide (id = chat_id)) as [->|Hne].
      * rewrite lookup_insert_eq. intros [= <-]. apply history_ok_slice.
        pose proof (history_ok_get m chat_id Hm) as Hok.
        unfold history_ok in Hok. by repeat (apply andb_prop in Hok as [Hok _]).
      * rewrite lookup_insert_ne by done. apply Hm.
    + by rewrite chat_with_groq_unconfigured.
  - intros h u a Hp. apply paired_slice, paired_app; done.
Qed.

End BufferInvariant.

(** *** Sequences of calls *)

Lemma flat_map_turns_length (exs : list exchange) :
  length (flat_map exchange_turns exs) = (2 * length exs)%nat.
Proof. induction exs as [|e exs IH]; simpl; lia. Qed.

Lemma flat_map_turns_drop j (exs : list exchange) :
  drop (2 * j) (flat_map exchange_turns exs) = flat_map exchange_turns (drop j exs).
Proof.
  revert exs. induction j as [|j IH]; intros exs; [done|].
  destruct exs as [|e exs]; [done|].
  replace (2 * S j)%nat with (S (S (2 * j))) by lia. simpl. apply IH.
Qed.

(** The last [2*n] turns of a run of exchanges are its last [n] exchanges. *)
Lemma last_turns_last_exchanges n (exs : list exchange) :
  last_n (2 * n) (flat_map exchange_turns exs)
  = flat_map exchange_turns (last_n n exs).
Proof.
  unfold last_n. rewrite flat_map_turns_length, <- flat_map_turns_drop.
  f_equal. lia.
Qed.

Section CallSequences.
Context {World : Type} `{Collaborators World}.
Implicit Types (m : machine World) (key : option string).

(** With a client, a sequence of calls always runs to its end, and the
    history it leaves for a recipient is the last [MAX_HISTORY*2] turns of
    what the recipient had, followed by the turns of its exchanges. *)
Lemma chat_all_history key g calls m chat_id :
  groq_client key = Some g ->
  exists log m',
    chat_all key calls m = (Return log, m')
    /\ map (fun e => (ex_chat e, ex_input e)) log = calls
    /\ (exchanges_of chat_id log = [] -> get_history m' chat_id = get_history m chat_id)
    /\ (exchanges_of chat_id log ≠ [] ->
        get_history m' chat_id
        = last_n kept_turns (get_history m chat_id
                             ++ flat_map exchange_turns (exchanges_of chat_id log))).
Proof.
  intros Hk. revert m. induction calls as [|[id input] calls IH]; intros m.
  - exists [], m. repeat split; done.
  - simpl. unfold bind at 1.
    rewrite (chat_with_groq_configured key g) by done.
    set (out := (completions_create _ _).1).
    set (m1 := Machine _ _ _ _).
    destruct (IH m1) as (log & m' & Hrun & Hcalls & Hnone & Hsome).
    unfold bind, ret. rewrite Hrun.
    exists (Exchange id input (reply_of out) :: log), m'.
    split; [reflexivity|]. split; [simpl; by rewrite Hcalls|].
    assert (Hm1 : get_history m1 chat_id
                  = if decide (id = chat_id)
                    then last_n kept_turns
                           (get_history m chat_id
                            ++ exchange_turns (Exchange id input (reply_of out)))
                    else get_history m chat_id).
    { unfold get_history at 1. subst m1. simpl.
      destruct (decide (id = chat_id)) as [->|Hne].
      - by rewrite lookup_insert_eq.
      - by rewrite lookup_insert_ne. }
    unfold exchanges_of in *. rewrite filter_cons. simpl.
    destruct (decide (id = chat_id)) as [->|Hne]; simpl.
    + split; [done|]. intros _.
      destruct (decide (filter (fun e => ex_chat e = chat_id) log = [])) as [He|He].
      * rewrite He, Hnone, Hm1 by done. reflexivity.
      * rewrite Hsome, Hm1 by done. rewrite last_n_absorb, <- app_assoc.
        reflexivity.
    + rewrite <- Hm1. split; [exact Hnone|exact Hsome].
Qed.

(** C1 (as amended).  When the provider client is configured, every
    sequence of calls of [chat_with_groq], from any state and whatever the
    provider answers (failed calls included), runs to its end, and for
    every recipient that had N > MAX_HISTORY exchanges in it the stored
    history afterwards is exactly the turns of its most recent
    MAX_HISTORY exchanges, in chronological order: 2*MAX_HISTORY turns,
    the older ones dropped from the front.  With N = 7 the history has
    length 10 and begins with the user turn of exchange #3. *)
Theorem history_is_recent_exchanges key g calls m chat_id :
  groq_client key = Some g ->
  retains_recent_exchanges key m calls chat_id
  /\ forall log m',
       chat_all key calls m = (Return log, m') ->
       let exs := exchanges_of chat_id log in
       (MAX_HISTORY < Z.of_nat (length exs) ->
          Z.of_nat (length (get_history m' chat_id)) = 2 * MAX_HISTORY)
       /\ (length exs = 7%nat ->
             length (get_history m' chat_id) = 10%nat
             /\ head (get_history m' chat_id)
                = (fun e => (User, ex_input e)) <$> exs !! 2%nat).
Proof.
  intros Hk.
  destruct (chat_all_history key g calls m chat_id Hk)
    as (log & m' & Hrun & Hcalls & _ & Hsome).
  assert (Hmain : MAX_HISTORY < Z.of_nat (length (exchanges_of chat_id log)) ->
                  get_history m' chat_id
                  = flat_map exchange_turns
                      (last_n (Z.to_nat MAX_HISTORY) (exchanges_of chat_id log))).
  { intros Hlen. rewrite Hsome by (intros He; rewrite He in Hlen; simpl in Hlen;
                                   unfold MAX_HISTORY in Hlen; lia).
    rewrite last_n_app_long.
    - apply (last_turns_last_exchanges 5).
    - rewrite flat_map_turns_length. change kept_turns with 10%nat.
      unfold MAX_HISTORY in Hlen. lia. }
  split.
  - exists log, m'. repeat split; done.
  - intros log' m'' Hrun'. rewrite Hrun in Hrun'. injection Hrun' as <- <-.
    intros exs. split.
    + intros Hlen. rewrite Hmain by done.
      rewrite flat_map_turns_length, last_n_length. fold exs.
      unfold MAX_HISTORY in *. lia.
    + intros H7. fold exs in Hmain. rewrite Hmain by (rewrite H7; done).
      do 8 (destruct exs as [|? exs]; try discriminate). done.
Qed.

End CallSequences.

(** *** The Subscriber Store *)

Section StoreFacts.
Implicit Types (t : list row) (r : row) (k : Z).


Lemma members_place_row r t : members (place_row r t) = {[chat_id_of r]} ∪ members t.
Proof.
  unfold members. induction t as [|r' t IH]; simpl.
  - reflexivity.
  - destruct (chat_id_of r <? chat_id_of r'); simpl; [reflexivity|].
    rewrite IH. set_solver.
Qed.


Lemma members_delete_where k t : members (delete_where k t) = members t ∖ {[k]}.
Proof.
  unfold members, delete_where. induction t as [|r t IH]; simpl.
  - set_solver.
  - rewrite filter_cons. destruct (decide (chat_id_of r ≠ k)) as [Hne|Heq]; simpl.
    + rewrite IH. set_solver.
    + apply dec_stable in Heq. rewrite IH. set_solver.
Qed.


Lemma delete_where_absent k t : k ∉ members t -> delete_where k t = t.
Proof.
  unfold members, delete_where. induction t as [|r t IH]; simpl; intros Hk.
  - reflexivity.
  - rewrite filter_cons, decide_True by set_solver. f_equal. apply IH. set_solver.
Qed.

(** The uniqueness of the primary key: a table in strictly increasing
    [chat_id] order stays so. *)
Lemma place_row_sorted r t :
  has_key (chat_id_of r) t = false ->
  StronglySorted Z.lt (select_chat_id t) ->
  StronglySorted Z.lt (select_chat_id (place_row r t)).
Proof.
  induction t as [|r' t IH]; simpl; intros Hk Hs.
  - repeat constructor.
  - apply orb_false_iff in Hk as [Hne Hk]. apply Z.eqb_neq in Hne.
    apply StronglySorted_inv in Hs as [Hs Hall].
    destruct (Z.ltb_spec (chat_id_of r) (chat_id_of r')) as [Hlt|Hge]; simpl.
    + constructor; [by constructor|]. constructor; [done|].
      eapply Forall_impl; [exact Hall|]. simpl. intros. lia.
    + constructor; [by apply IH|].
      rewrite Forall_forall in Hall |- *. intros x Hx.
      assert (Hx' : x ∈ members (place_row r t)).
      { unfold members. by rewrite elem_of_list_to_set. }
      rewrite members_place_row in Hx'.
      apply elem_of_union in Hx' as [Hx'|Hx'].
      * apply elem_of_singleton in Hx'. lia.
      * unfold members in Hx'. rewrite elem_of_list_to_set in Hx'. by apply Hall.
Qed.

Lemma insert_or_ignore_sorted r t :
  StronglySorted Z.lt (select_chat_id t) ->
  StronglySorted Z.lt (select_chat_id (insert_or_ignore r t)).
Proof.
  intros Hs. unfold insert_or_ignore.
  destruct (has_key (chat_id_of r) t) eqn:Hk; [done|by apply place_row_sorted].
Qed.

Lemma delete_where_sorted k t :
  StronglySorted Z.lt (select_chat_id t) ->
  StronglySorted Z.lt (select_chat_id (delete_where k t)).
Proof.
  unfold delete_where, select_chat_id. induction t as [|r t IH]; simpl; intros Hs.
  - constructor.
  - apply StronglySorted_inv in Hs as [Hs Hall]. rewrite filter_cons.
    destruct (decide (chat_id_of r ≠ k)); simpl; [|by apply IH].
    constructor; [by apply IH|].
    rewrite Forall_forall in Hall |- *. intros x Hx. apply Hall.
    apply list_elem_of_fmap in Hx as (r0 & -> & Hr0).
    apply list_elem_of_fmap. exists r0. split; [done|].
    by apply list_elem_of_filter in Hr0 as [_ Hr0].
Qed.

End StoreFacts.

Section StoreClaims.
Context {World : Type} `{Collaborators World}.
Implicit Types (m : machine World).

Lemma add_subscriber_stores chat_id first_name tz m :
  sqlite_int chat_id = true -> utf8_encodable first_name = true ->
  add_subscriber chat_id first_name tz m
  = (Return tt,
     Machine (USER_CONTEXT m)
             (insert_or_ignore (Row chat_id first_name tz) (subscribers m))
             (world m) (trace m)).
Proof. intros Hk Hn. unfold add_subscriber. by rewrite Hk, Hn. Qed.

Lemma add_subscriber_overflow chat_id first_name tz m :
  sqlite_int chat_id = false ->
  add_subscriber chat_id first_name tz m = (Raise OverflowError, m).
Proof. intros Hk. unfold add_subscriber. by rewrite Hk. Qed.

Lemma add_subscriber_unencodable chat_id first_name tz m :
  sqlite_int chat_id = true -> utf8_encodable first_name = false ->
  add_subscriber chat_id first_name tz m = (Raise UnicodeEncodeError, m).
Proof. intros Hk Hn. unfold add_subscriber. by rewrite Hk, Hn. Qed.

Lemma remove_subscriber_deletes chat_id m :
  sqlite_int chat_id = true ->
  remove_subscriber chat_id m
  = (Return tt,
     Machine (USER_CONTEXT m) (delete_where chat_id (subscribers m))
             (world m) (trace m)).
Proof. intros Hk. unfold remove_subscriber. by rewrite Hk. Qed.

Lemma remove_subscriber_overflow chat_id m :
  sqlite_int chat_id = false ->
  remove_subscriber chat_id m = (Raise OverflowError, m).
Proof. intros Hk. unfold remove_subscriber. by rewrite Hk. Qed.



End StoreClaims.

(** *** The Broadcaster *)

Section TraceFacts.
Implicit Types tr : list event.

Lemma attempts_app tr1 tr2 : attempts (tr1 ++ tr2) = attempts tr1 ++ attempts tr2.
Proof. apply omap_app. Qed.

Lemma failures_app tr1 tr2 : failures (tr1 ++ tr2) = failures tr1 ++ failures tr2.
Proof. apply omap_app. Qed.

Lemma warnings_app tr1 tr2 : warnings (tr1 ++ tr2) = warnings tr1 ++ warnings tr2.
Proof. apply omap_app. Qed.

Lemma logged_counts_app tr1 tr2 :
  logged_counts (tr1 ++ tr2) = logged_counts tr1 ++ logged_counts tr2.
Proof. apply omap_app. Qed.

End TraceFacts.

Section Broadcast.
Context {World : Type} `{Collaborators World}.
Implicit Types (m : machine World).

(** One turn of the loop: one attempt, and one warning exactly when the
    attempt raised. *)
Lemma deliver_one message chat_id m :
  exists new m',
    try_except (send_message chat_id message)
               (fun e => emit (LogFailedToSend chat_id e)) m = (Return tt, m')
    /\ trace m' = trace m ++ new
    /\ USER_CONTEXT m' = USER_CONTEXT m /\ subscribers m' = subscribers m
    /\ attempts new = [(chat_id, message)]
    /\ warnings new = failures new /\ logged_counts new = [].
Proof.
  unfold try_except, send_message, emit.
  destruct (bot_send_message chat_id message (world m)) as [[[]|e] w]; simpl.
  - eexists [SendMessage chat_id message (Return tt)], _. repeat split.
  - eexists [SendMessage chat_id message (Raise e); LogFailedToSend chat_id e], _.
    simpl. rewrite <- app_assoc. repeat split.
Qed.

Lemma deliver_all message subs m :
  exists new m',
    for_in subs (fun chat_id =>
                   try_except (send_message chat_id message)
                              (fun e => emit (LogFailedToSend chat_id e))) m
    = (Return tt, m')
    /\ trace m' = trace m ++ new
    /\ USER_CONTEXT m' = USER_CONTEXT m /\ subscribers m' = subscribers m
    /\ attempts new = map (fun chat_id => (chat_id, message)) subs
    /\ warnings new = failures new /\ logged_counts new = [].
Proof.
  revert m. induction subs as [|chat_id subs IH]; intros m.
  - exists [], m. rewrite app_nil_r. repeat split.
  - simpl. unfold bind.
    destruct (deliver_one message chat_id m)
      as (new1 & m1 & -> & Htr1 & Hctx1 & Hsubs1 & Hatt1 & Hwarn1 & Hcnt1).
    destruct (IH m1) as (new2 & m2 & -> & Htr2 & Hctx2 & Hsubs2 & Hatt2 & Hwarn2 & Hcnt2).
    exists (new1 ++ new2), m2.
    rewrite attempts_app, warnings_app, failures_app, logged_counts_app.
    rewrite Htr2, Htr1, Hctx2, Hctx1, Hsubs2, Hsubs1, Hatt1, Hatt2, Hwarn1, Hwarn2,
      Hcnt1, Hcnt2, <- app_assoc.
    repeat split.
Qed.

Lemma random_choice_quote m :
  exists quote w,
    random_choice QUOTES m
    = (Return quote, Machine (USER_CONTEXT m) (subscribers m) w (trace m))
    /\ quote ∈ QUOTES.
Proof.
  unfold random_choice, QUOTES at 1.
  destruct (randbelow (length QUOTES) (world m)) as [i w].
  eexists _, w. split; [reflexivity|].
  apply list_elem_of_In, nth_In.
  apply Nat.mod_upper_bound. discriminate.
Qed.

(** The whole job, in one statement shared by the claims below. *)
Lemma send_daily_messages_trace m :
  exists quote new m',
    send_daily_messages m = (Return tt, m')
    /\ quote ∈ QUOTES
    /\ trace m' = trace m ++ LogSending (length (subscribers m)) :: new
    /\ USER_CONTEXT m' = USER_CONTEXT m /\ subscribers m' = subscribers m
    /\ attempts new
       = map (fun chat_id => (chat_id, daily_message quote))
             (select_chat_id (subscribers m))
    /\ warnings new = failures new /\ logged_counts new = [].
Proof.
  unfold send_daily_messages, bind.
  destruct (random_choice_quote m) as (quote & w & -> & Hq).
  unfold get_subscribers. cbv beta iota zeta.
  unfold emit at 1. cbv beta iota zeta.
  match goal with |- context [for_in ?l _ ?m1] =>
    destruct (deliver_all (daily_message quote) l m1)
      as (new & m' & Hrun & Htr & Hctx & Hsubs & Hatt & Hwarn & Hcnt) end.
  simpl in Htr, Hctx, Hsubs, Hatt.
  exists quote, new, m'. split; [exact Hrun|]. clear Hrun.
  rewrite Htr, <- app_assoc. unfold select_chat_id in *. rewrite length_map.
  repeat split; done.
Qed.


(** C8 (as amended).  A broadcast cycle returns nothing ([None]).  Before
    the first attempt it logs one count, the number of subscribers, which
    is the number of deliveries it then attempts; it logs no other count,
    in particular no count of failed deliveries.  Failures are reported
    one by one instead: one warning per failed delivery, with the id and
    the exception; so when exactly one delivery fails, exactly one
    failure is logged. *)
Theorem broadcast_logs_attempts_and_each_failure m :
  exists new m',
    send_daily_messages m = (Return tt, m')
    /\ trace m' = trace m ++ new
    /\ head new = Some (LogSending (length (attempts new)))
    /\ logged_counts new = [length (attempts new)]
    /\ length (attempts new) = length (subscribers m)
    /\ warnings new = failures new
    /\ (forall chat_id e, failures new = [(chat_id, e)] ->
                          warnings new = [(chat_id, e)]).
Proof.
  destruct (send_daily_messages_trace m)
    as (quote & new & m' & Hrun & Hq & Htr & Hctx & Hsubs & Hatt & Hwarn & Hcnt).
  exists (LogSending (length (subscribers m)) :: new), m'.
  assert (Hlen : length (attempts (LogSending (length (subscribers m)) :: new))
                 = length (subscribers m)).
  { change (attempts (_ :: new)) with (attempts new).
    rewrite Hatt. unfold select_chat_id. by rewrite !length_map. }
  rewrite Hlen.
  change (logged_counts (_ :: new)) with (length (subscribers m) :: logged_counts new).
  change (warnings (_ :: new)) with (warnings new).
  change (failures (_ :: new)) with (failures new).
  rewrite Hcnt, Hwarn. repeat split; try done.
Qed.

End Broadcast.

(** ** The claims on concrete runs *)

Module Runs.
Import Demo DemoRuns.

(** Without a client, seven exchanges of chat 1 leave its history empty. *)
Lemma unconfigured_history_stays_empty :
  ~ retains_recent_exchanges None start seven_calls 1.
Proof.
  intros (log & m' & Hrun & _ & Hhist).
  vm_compute in Hrun. injection Hrun as <- <-.
  assert (Hlen : MAX_HISTORY < 7) by reflexivity.
  specialize (Hhist Hlen). vm_compute in Hhist. discriminate Hhist.
Qed.

Lemma history_is_recent_exchanges_witness :
  groq_client key = Some demo_client
  /\ retains_recent_exchanges key start seven_calls 1
  /\ length (get_history (chat_all key seven_calls start).2 1) = 10%nat
  /\ head (get_history (chat_all key seven_calls start).2 1)
     = Some (User, lit "msg 3").
Proof.
  assert (Hk : groq_client key = Some demo_client) by reflexivity.
  destruct (history_is_recent_exchanges key demo_client seven_calls start 1 Hk)
    as [Hkeep Hex].
  split; [exact Hk|]. split; [exact Hkeep|].
  destruct (chat_all key seven_calls start) as [r m'] eqn:Hrun.
  destruct r as [log|e]; [|vm_compute in Hrun; discriminate Hrun].
  destruct (Hex log m' eq_refl) as [_ H7].
  assert (Hlog : length (exchanges_of 1 log) = 7%nat).
  { vm_compute in Hrun. injection Hrun as <- _. reflexivity. }
  destruct (H7 Hlog) as [Hlen Hhead].
  split; [exact Hlen|]. simpl. rewrite Hhead.
  vm_compute in Hrun. injection Hrun as <- _. reflexivity.
Defined.

(** The two fallback paths return two different texts. *)
Lemma no_single_fallback_text :
  ~ exists t, falls_back_to None t 1 hi start
              /\ falls_back_to key t 1 (lit "boom") start.
Proof.
  intros (t & Hnone & Hraise).
  assert (H1 : Return REPLY_UNAVAILABLE = Return t).
  { rewrite <- Hnone; [reflexivity|]. left. reflexivity. }
  assert (H2 : Return REPLY_ON_ERROR = Return t).
  { rewrite <- Hraise; [reflexivity|]. right. eexists. reflexivity. }
  rewrite <- H2 in H1. vm_compute in H1. discriminate H1.
Qed.

Lemma chat_with_groq_fallback_reply_witness :
  (chat_with_groq None 1 hi start).1 = Return REPLY_UNAVAILABLE
  /\ (chat_with_groq key 1 (lit "boom") start).1 = Return REPLY_ON_ERROR
  /\ (chat_with_groq key 1 (lit "void") start).1 = Return REPLY_ON_ERROR
  /\ (chat_with_groq key 1 (lit "null") start).1 = Return REPLY_ON_ERROR.
Proof.
  split; [|split; [|split]].
  - apply (chat_with_groq_fallback_reply None 1 hi start). reflexivity.
  - apply (proj2 (chat_with_groq_fallback_reply key 1 (lit "boom") start)
                 demo_client (External "timeout")); reflexivity.
  - apply (proj2 (chat_with_groq_fallback_reply key 1 (lit "void") start)
                 demo_client IndexError); reflexivity.
  - apply (proj2 (chat_with_groq_fallback_reply key 1 (lit "null") start)
                 demo_client AttributeError); reflexivity.
Defined.



Lemma chat_with_groq_request_and_reply_witness :
  (chat_with_groq key 1 hi start).1 = Return (lit "re: hi")
  /\ attempts (trace (chat_with_groq key 1 hi start).2) = []
  /\ length (trace (chat_with_groq key 1 hi start).2) = 1%nat.
Proof.
  destruct (chat_with_groq_request_and_reply key demo_client 1 hi start
              ([blank; 10%N] ++ lit "re: hi" ++ [blank]) [])
    as (reply & Hreply & Htrace & Hstrip & _);
    [reflexivity|vm_compute; reflexivity|].
  rewrite Hreply, Htrace, Hstrip. split; [reflexivity|]. split; reflexivity.
Defined.

Lemma fallback_paths_differ_on_history_witness :
  chat_with_groq None 1 hi start = (Return REPLY_UNAVAILABLE, start)
  /\ get_history (chat_with_groq key 1 (lit "boom") start).2 1
     = [(User, lit "boom"); (Assistant, REPLY_ON_ERROR)]
  /\ get_history (chat_with_groq key 1 hi start).2 1
     = [(User, hi); (Assistant, lit "re: hi")].
Proof.
  split; [|split].
  - apply (fallback_paths_differ_on_history None 1 hi start). reflexivity.
  - destruct (fallback_paths_differ_on_history key 1 (lit "boom") start)
      as (_ & Hraise & _).
    destruct (Hraise demo_client (External "timeout")) as [_ ->];
      reflexivity.
  - destruct (fallback_paths_differ_on_history key 1 hi start) as (_ & _ & Hok).
    destruct (Hok demo_client (lit "re: hi")) as [_ ->]; reflexivity.
Defined.

Lemma context_buffer_invariant_witness :
  buffer_ok start
  /\ buffer_ok (chat_with_groq key 1 hi start).2
  /\ paired (slice_from (- MAX_HISTORY * 2)
               ([(User, hi); (Assistant, hi)] ++ [(User, hi); (Assistant, hi)]))
     = true.
Proof.
  destruct (@context_buffer_invariant nat demo) as (Hstart & Hstep & Hcut).
  split; [apply Hstart|]. split.
  - apply Hstep, Hstart.
  - apply Hcut. reflexivity.
Defined.



(** Subscribers 10, 20 and 30, delivery to 20 refused: all three are tried,
    one failure is logged, for 20, and the table is as before. *)
Example broadcast_isolates_one_failure :
  (send_daily_messages three_subscribers).1 = Return tt
  /\ map fst (attempts (trace (send_daily_messages three_subscribers).2))
     = [10; 20; 30]
  /\ warnings (trace (send_daily_messages three_subscribers).2)
     = [(20, External "blocked")]
  /\ subscribers (send_daily_messages three_subscribers).2
     = subscribers three_subscribers.
Proof. vm_compute. repeat split. Qed.

(** One delivery of three fails; the only count the cycle logs is 3. *)
Lemma no_failure_count_is_logged :
  ~ reports_failure_count (trace (send_daily_messages three_subscribers).2).
Proof.
  unfold reports_failure_count.
  change (length (failures (trace (send_daily_messages three_subscribers).2)))
    with 1%nat.
  change (logged_counts (trace (send_daily_messages three_subscribers).2))
    with [3%nat].
  rewrite list_elem_of_singleton. discriminate.
Qed.

Lemma broadcast_logs_attempts_and_each_failure_witness :
  failures (trace (send_daily_messages three_subscribers).2)
  = [(20, External "blocked")]
  /\ warnings (trace (send_daily_messages three_subscribers).2)
     = [(20, External "blocked")]
  /\ logged_counts (trace (send_daily_messages three_subscribers).2) = [3%nat].
Proof.
  destruct (broadcast_logs_attempts_and_each_failure three_subscribers)
    as (new & m' & Hrun & Htr & Hhead & Hcnt & Hlen & Hwarn & Hone).
  assert (Hnew : trace (send_daily_messages three_subscribers).2 = new).
  { rewrite Hrun. simpl. rewrite Htr. reflexivity. }
  assert (Hf : failures new = [(20, External "blocked")]).
  { rewrite <- Hnew. vm_compute. reflexivity. }
  rewrite Hnew. split; [exact Hf|]. split; [apply Hone; exact Hf|].
  rewrite Hcnt, Hlen. reflexivity.
Defined.

End Runs.

(** ** Further properties of the code *)

(** *** The store *)


Section StoreExtras.
Context {World : Type} `{Collaborators World}.
Implicit Types (m : machine World).


(** Whether a call stores, deletes or raises, the table stays in key
    order. *)
Lemma run_op_table_ok op m :
  table_ok (subscribers m) -> table_ok (subscribers (run_op op m).2).
Proof.
  intros Hs. destruct op as [k name|k]; simpl.
  - destruct (sqlite_int k) eqn:Hk;
      [|by rewrite add_subscriber_overflow].
    destruct (utf8_encodable name) eqn:Hn;
      [|by rewrite add_subscriber_unencodable].
    rewrite add_subscriber_stores by done. simpl.
    by apply insert_or_ignore_sorted.
  - destruct (sqlite_int k) eqn:Hk;
      [|by rewrite remove_subscriber_overflow].
    rewrite remove_subscriber_deletes by done. simpl.
    by apply delete_where_sorted.
Qed.

Lemma run_ops_table_ok ops m :
  table_ok (subscribers m) -> table_ok (subscribers (run_ops ops m).2).
Proof.
  revert m. induction ops as [|op ops IH]; intros m Hs; [done|].
  unfold run_ops. simpl. unfold bind.
  pose proof (run_op_table_ok op m Hs) as Hs1.
  destruct (run_op op m) as [[[]|e] m1]; simpl in *; [|done].
  by apply IH.
Qed.

Lemma table_ok_NoDup (t : list row) : table_ok t -> NoDup (select_chat_id t).
Proof.
  unfold table_ok. induction 1 as [|k ks Hs IH Hall]; constructor; [|done].
  intros Hin. rewrite Forall_forall in Hall. specialize (Hall k Hin). lia.
Qed.


End StoreExtras.

(** *** One call of [chat_with_groq], continued *)

Section TraceFactsMore.
Implicit Types tr : list event.

Lemma provider_calls_app tr1 tr2 :
  provider_calls (tr1 ++ tr2) = provider_calls tr1 ++ provider_calls tr2.
Proof. apply omap_app. Qed.

Lemma replies_app tr1 tr2 : replies (tr1 ++ tr2) = replies tr1 ++ replies tr2.
Proof. apply omap_app. Qed.

Lemma groq_errors_app tr1 tr2 :
  groq_errors (tr1 ++ tr2) = groq_errors tr1 ++ groq_errors tr2.
Proof. apply omap_app. Qed.

End TraceFactsMore.

Section GeneratorExtras.
Context {World : Type} `{Collaborators World}.
Implicit Types (m : machine World) (key : option string).

(** What a call does to the world around it: it always returns a reply;
    it sends nothing over the bot API and leaves the table alone; with a
    client it asks the provider exactly once, and it writes a "Groq error"
    line at most once and only when the reply is the fallback text; with
    [GROQ_API_KEY] unset or empty it does nothing at all besides
    returning. *)
Theorem chat_with_groq_effects key chat_id user_message m :
  exists reply new m',
    chat_with_groq key chat_id user_message m = (Return reply, m')
    /\ trace m' = trace m ++ new
    /\ subscribers m' = subscribers m
    /\ attempts new = [] /\ replies new = []
    /\ (forall g, groq_client key = Some g ->
          provider_calls new = [groq_request (get_history m chat_id) user_message])
    /\ (length (groq_errors new) <= 1)%nat
    /\ (groq_errors new ≠ [] -> reply = REPLY_ON_ERROR)
    /\ (key = None \/ key = Some "" -> new = [] /\ m' = m).
Proof.
  destruct (groq_client key) as [g|] eqn:Hk.
  - rewrite (chat_with_groq_configured key g) by done.
    set (req := groq_request _ _). set (out := (completions_create _ _).1).
    eexists _, (ProviderCall req out :: error_log out), _.
    split; [reflexivity|]. simpl.
    assert (Hcases : (error_log out = [] /\ groq_errors (error_log out) = [])
                     \/ (exists e, error_log out = [LogGroqError e]
                                   /\ reply_of out = REPLY_ON_ERROR)).
    { unfold error_log, reply_of. destruct (read_reply out); eauto. }
    split; [reflexivity|]. split; [reflexivity|].
    split; [destruct Hcases as [[-> _]|(e & -> & _)]; reflexivity|].
    split; [destruct Hcases as [[-> _]|(e & -> & _)]; reflexivity|].
    split; [intros g' _; destruct Hcases as [[-> _]|(e & -> & _)]; reflexivity|].
    split; [destruct Hcases as [[-> _]|(e & -> & _)]; simpl; lia|].
    split; [destruct Hcases as [[-> _]|(e & -> & Hr)]; done|].
    intros [->| ->]; discriminate Hk.
  - rewrite chat_with_groq_unconfigured by done.
    exists REPLY_UNAVAILABLE, [], m. rewrite app_nil_r.
    repeat split; try done. simpl. lia.
Qed.

(** The request stays small.  When every stored history has at most
    [MAX_HISTORY*2] turns, a request sent to the provider has at most
    [MAX_HISTORY*2 + 2] messages; its first message is the system
    instruction, its last the new input in the user role, and it asks for
    at most 120 tokens of the fixed model. *)
Theorem provider_request_is_bounded key chat_id user_message m req :
  buffer_ok m ->
  req ∈ provider_calls
          (new_events m (chat_with_groq key chat_id user_message m).2) ->
  Z.of_nat (length (req_messages req)) <= MAX_HISTORY * 2 + 2
  /\ head (req_messages req) = Some (Message System SYSTEM_PROMPT)
  /\ list.last (req_messages req) = Some (Message User user_message)
  /\ req_max_tokens req = 120
  /\ req_model req = "llama-3.1-8b-instant".
Proof.
  intros Hm Hreq. unfold new_events in Hreq.
  destruct (groq_client key) as [g|] eqn:Hk.
  - rewrite (chat_with_groq_configured key g) in Hreq by done.
    simpl in Hreq. rewrite drop_app_length in Hreq.
    change (provider_calls (ProviderCall ?r ?o :: ?l))
      with (r :: provider_calls l) in Hreq.
    assert (Hnone : provider_calls
                      (error_log (completions_create
                                    (groq_request (get_history m chat_id) user_message)
                                    (world m)).1) = []).
    { unfold error_log. by destruct (read_reply _). }
    rewrite Hnone in Hreq. apply list_elem_of_singleton in Hreq as ->.
    simpl. pose proof (history_ok_get m chat_id Hm) as Hok.
    unfold history_ok in Hok. apply andb_prop in Hok as [_ Hlen].
    apply Z.leb_le in Hlen. unfold spec_messages.
    repeat split.
    + simpl. rewrite length_app, length_map. simpl.
      unfold MAX_HISTORY, turn in *. lia.
    + rewrite app_comm_cons. apply last_snoc.
  - rewrite chat_with_groq_unconfigured in Hreq by done.
    simpl in Hreq. rewrite drop_all in Hreq. by apply elem_of_nil in Hreq.
Qed.

(** The end of the history is the exchange just made, and nothing is lost
    while there is room: with a client, after the call the history of the
    recipient ends with the user turn and the assistant turn carrying the
    returned reply; if the old history had room for two more turns the new
    one is the old one followed by those two, and if it was full
    ([MAX_HISTORY*2] turns) exactly its two oldest turns are gone. *)
Theorem history_after_one_call key g chat_id user_message m :
  groq_client key = Some g ->
  exists reply m',
    chat_with_groq key chat_id user_message m = (Return reply, m')
    /\ let old := get_history m chat_id in
       let pair := [(User, user_message); (Assistant, reply)] in
       (exists kept, get_history m' chat_id = kept ++ pair)
       /\ (Z.of_nat (length old) + 2 <= MAX_HISTORY * 2 ->
             get_history m' chat_id = old ++ pair)
       /\ (Z.of_nat (length old) = MAX_HISTORY * 2 ->
             get_history m' chat_id = drop 2 old ++ pair).
Proof.
  intros Hk. rewrite (chat_with_groq_configured key g) by done.
  eexists _, _. split; [reflexivity|].
  set (old := get_history m chat_id). cbv zeta.
  unfold get_history. cbn [USER_CONTEXT]. rewrite lookup_insert_eq.
  cbn [default from_option]. set (pair := [_; _]).
  assert (Hshort : last_n kept_turns (old ++ pair)
                   = last_n (kept_turns - 2) old ++ pair).
  { apply (last_n_app_short kept_turns old pair). simpl.
    change kept_turns with 10%nat. lia. }
  rewrite Hshort. split; [eauto|]. split.
  - intros Hroom. rewrite last_n_all; [done|].
    change kept_turns with 10%nat. unfold MAX_HISTORY in Hroom. lia.
  - intros Hfull. unfold last_n. change kept_turns with 10%nat.
    unfold MAX_HISTORY in Hfull.
    replace (length old - (10 - 2))%nat with 2%nat by lia. reflexivity.
Qed.

End GeneratorExtras.

(** *** Sequences of calls, continued *)

Section CallSequencesMore.
Context {World : Type} `{Collaborators World}.
Implicit Types (m : machine World) (key : option string).

Lemma chat_all_unconfigured key calls m :
  groq_client key = None ->
  exists log, chat_all key calls m = (Return log, m).
Proof.
  intros Hk. induction calls as [|[id input] calls [log IH]]; simpl.
  - by exists [].
  - unfold bind. rewrite chat_with_groq_unconfigured by done.
    rewrite IH. eexists. reflexivity.
Qed.

Lemma exchanges_of_none chat_id (log : list exchange) :
  (forall c, c ∈ map (fun e => (ex_chat e, ex_input e)) log -> c.1 ≠ chat_id) ->
  exchanges_of chat_id log = [].
Proof.
  unfold exchanges_of. induction log as [|e log IH]; intros Hno; [done|].
  rewrite filter_cons, decide_False.
  - apply IH. intros c Hc. apply Hno. simpl. by right.
  - apply (Hno (ex_chat e, ex_input e)). simpl. by left.
Qed.

(** Recipients do not see each other: a sequence of calls in which none
    is for [chat_id] leaves the history of [chat_id] as it was, whatever
    the configuration and whatever the provider answers. *)
Theorem other_chats_leave_history_alone key calls m chat_id :
  (forall c, c ∈ calls -> c.1 ≠ chat_id) ->
  get_history (chat_all key calls m).2 chat_id = get_history m chat_id.
Proof.
  intros Hno. destruct (groq_client key) as [g|] eqn:Hk.
  - destruct (chat_all_history key g calls m chat_id Hk)
      as (log & m' & -> & Hcalls & Hnone & _).
    simpl. apply Hnone, exchanges_of_none. by rewrite Hcalls.
  - destruct (chat_all_unconfigured key calls m Hk) as [log ->]. reflexivity.
Qed.

(** While there is room nothing is lost: with a client, if the turns a
    recipient had and the turns of its exchanges in the sequence fit in
    [MAX_HISTORY*2] together, its history afterwards is what it had
    followed by all of those exchanges in order. *)
Theorem short_runs_lose_nothing key g calls m chat_id :
  groq_client key = Some g ->
  exists log m',
    chat_all key calls m = (Return log, m')
    /\ (Z.of_nat (length (get_history m chat_id))
        + 2 * Z.of_nat (length (exchanges_of chat_id log)) <= MAX_HISTORY * 2 ->
        get_history m' chat_id
        = get_history m chat_id ++ flat_map exchange_turns (exchanges_of chat_id log)).
Proof.
  intros Hk. destruct (chat_all_history key g calls m chat_id Hk)
    as (log & m' & Hrun & _ & Hnone & Hsome).
  exists log, m'. split; [exact Hrun|]. intros Hfit.
  destruct (decide (exchanges_of chat_id log = [])) as [He|He].
  - rewrite He, app_nil_r. by apply Hnone.
  - rewrite Hsome by done. apply last_n_all.
    rewrite length_app, flat_map_turns_length.
    change kept_turns with 10%nat. unfold MAX_HISTORY in Hfit. lia.
Qed.

End CallSequencesMore.

(** *** The handlers *)

Lemma lstrip_blank (s : pystr) : forallb isspace s = true -> lstrip s = [].
Proof.
  induction s as [|c s IH]; simpl; [done|].
  intros Hs. apply andb_prop in Hs as [-> Hs]. by apply IH.
Qed.

Lemma strip_blank (s : pystr) : forallb isspace s = true -> strip s = [].
Proof. intros Hs. unfold strip. by rewrite lstrip_blank. Qed.

Section HandlerFacts.
Context {World : Type} `{Collaborators World}.
Implicit Types (m : machine World) (key : option string) (u : update).

Lemma reply_text_run chat_id text m :
  reply_text chat_id text m
  = ((message_reply_text chat_id text (world m)).1,
     Machine (USER_CONTEXT m) (subscribers m)
             (message_reply_text chat_id text (world m)).2
             (trace m ++ [ReplyText chat_id text
                            (message_reply_text chat_id text (world m)).1])).
Proof.
  unfold reply_text. by destruct (message_reply_text chat_id text (world m)).
Qed.

Lemma first_name_or_empty (n : pystr) : (if truthy n then n else []) = n.
Proof. by destruct n. Qed.

Lemma subscribe_run u m :
  sqlite_int (effective_chat_id u) = true ->
  utf8_encodable (user_first_name u) = true ->
  exists out m',
    subscribe u m = (out, m')
    /\ trace m' = trace m ++ [ReplyText (effective_chat_id u) SUBSCRIBED_TEXT out]
    /\ USER_CONTEXT m' = USER_CONTEXT m
    /\ subscribers m'
       = insert_or_ignore
           (Row (effective_chat_id u) (user_first_name u) TIMEZONE)
           (subscribers m).
Proof.
  intros Hk Hn. unfold subscribe, bind. cbv zeta.
  rewrite first_name_or_empty, add_subscriber_stores by done.
  rewrite reply_text_run. simpl.
  eexists _, _. split; [reflexivity|]. done.
Qed.

Lemma subscribe_raises u m :
  sqlite_int (effective_chat_id u) && utf8_encodable (user_first_name u) = false ->
  exists e, subscribe u m = (Raise e, m).
Proof.
  intros Hbad. unfold subscribe, bind. cbv zeta. rewrite first_name_or_empty.
  destruct (sqlite_int (effective_chat_id u)) eqn:Hk; simpl in Hbad.
  - rewrite add_subscriber_unencodable by done. eauto.
  - rewrite add_subscriber_overflow by done. eauto.
Qed.

Lemma unsubscribe_run u m :
  sqlite_int (effective_chat_id u) = true ->
  exists out m',
    unsubscribe u m = (out, m')
    /\ trace m' = trace m ++ [ReplyText (effective_chat_id u) UNSUBSCRIBED_TEXT out]
    /\ USER_CONTEXT m' = USER_CONTEXT m
    /\ subscribers m' = delete_where (effective_chat_id u) (subscribers m).
Proof.
  intros Hk. unfold unsubscribe, bind. cbv zeta.
  rewrite remove_subscriber_deletes by done. rewrite reply_text_run. simpl.
  eexists _, _. split; [reflexivity|]. done.
Qed.

Lemma unsubscribe_raises u m :
  sqlite_int (effective_chat_id u) = false ->
  unsubscribe u m = (Raise OverflowError, m).
Proof.
  intros Hk. unfold unsubscribe, bind. cbv zeta.
  by rewrite remove_subscriber_overflow.
Qed.

Lemma quote_cmd_run u m :
  exists quote out m',
    quote_cmd u m = (out, m')
    /\ trace m' = trace m ++ [ReplyText (effective_chat_id u) (quote_text quote) out]
    /\ subscribers m' = subscribers m /\ USER_CONTEXT m' = USER_CONTEXT m
    /\ quote ∈ QUOTES.
Proof.
  unfold quote_cmd, bind.
  destruct (random_choice_quote m) as (quote & w & -> & Hq).
  rewrite reply_text_run. simpl. eexists quote, _, _.
  split; [reflexivity|]. done.
Qed.

(** A message with no text, or with white space only, is dropped: no
    provider call, no reply, no change of any kind. *)
Theorem text_handler_ignores_blank key chat_id text m :
  (forall s, text = Some s -> forallb isspace s = true) ->
  text_handler key chat_id text m = (Return tt, m).
Proof.
  intros Hblank. unfold text_handler. cbv zeta.
  match goal with |- context [truthy (strip ?t)] =>
    assert (Hs : strip t = []) end.
  { destruct text as [s|]; [|done].
    destruct (truthy s); [|done]. by apply strip_blank, Hblank. }
  rewrite Hs. reflexivity.
Qed.

(** A message with visible text is answered once, in its own chat, with
    the reply [chat_with_groq] gave for the stripped text.  The exchange is
    recorded before the reply is sent: when sending fails, the exception
    leaves the handler and the Context Buffer keeps the exchange. *)
Theorem text_handler_replies_once key chat_id s m :
  strip s ≠ [] ->
  exists reply m1 out m',
    chat_with_groq key chat_id (strip s) m = (Return reply, m1)
    /\ text_handler key chat_id (Some s) m = (out, m')
    /\ trace m' = trace m1 ++ [ReplyText chat_id reply out]
    /\ USER_CONTEXT m' = USER_CONTEXT m1
    /\ subscribers m' = subscribers m.
Proof.
  intros Hs. unfold text_handler.
  assert (Hor : (if truthy s then s else []) = s) by (by destruct s).
  cbv zeta. rewrite Hor. destruct (strip s) as [|c t] eqn:Ht; [done|]. simpl.
  unfold bind.
  assert (Hsubs : subscribers (chat_with_groq key chat_id (c :: t) m).2
                  = subscribers m).
  { destruct (groq_client key) as [g|] eqn:Hk.
    - by rewrite (chat_with_groq_configured key g).
    - by rewrite chat_with_groq_unconfigured. }
  destruct (chat_with_groq_returns key chat_id (c :: t) m) as [reply Hr].
  destruct (chat_with_groq key chat_id (c :: t) m) as [r m1]. simpl in *. subst r.
  rewrite reply_text_run. eexists reply, m1, _, _.
  split; [reflexivity|]. split; [reflexivity|]. simpl. by rewrite Hsubs.
Qed.


(** [unsubscribe] likewise.  For a chat id that an SQLite INTEGER holds:
    the chat is no subscriber afterwards whatever becomes of the
    confirmation, every other subscriber stays, and the conversation
    history of the chat is kept.  For any other id binding the parameter
    raises [OverflowError] and the handler ends there without a reply or
    a change. *)
Theorem unsubscribe_removes_then_confirms u m :
  (sqlite_int (effective_chat_id u) = true ->
   exists out m',
     unsubscribe u m = (out, m')
     /\ members (subscribers m') = members (subscribers m) ∖ {[effective_chat_id u]}
     /\ (effective_chat_id u ∉ members (subscribers m) ->
         subscribers m' = subscribers m)
     /\ trace m' = trace m ++ [ReplyText (effective_chat_id u) UNSUBSCRIBED_TEXT out]
     /\ USER_CONTEXT m' = USER_CONTEXT m)
  /\ (sqlite_int (effective_chat_id u) = false ->
      unsubscribe u m = (Raise OverflowError, m)).
Proof.
  split.
  - intros Hk.
    destruct (unsubscribe_run u m Hk) as (out & m' & Hrun & Htr & Hctx & Hsubs).
    exists out, m'. split; [exact Hrun|]. rewrite Hsubs.
    split; [apply members_delete_where|].
    split; [intros Hout; by apply delete_where_absent|]. done.
  - apply unsubscribe_raises.
Qed.

(** [quote_cmd] never fails to find a quote: it sends one reply, the star
    followed by one of the ten quotes, and changes neither the table nor
    the Context Buffer. *)
Theorem quote_cmd_sends_a_quote u m :
  exists quote out m',
    quote_cmd u m = (out, m')
    /\ quote ∈ QUOTES
    /\ trace m' = trace m ++ [ReplyText (effective_chat_id u) (quote_text quote) out]
    /\ subscribers m' = subscribers m /\ USER_CONTEXT m' = USER_CONTEXT m.
Proof.
  destruct (quote_cmd_run u m) as (quote & out & m' & Hrun & Htr & Hsubs & Hctx & Hq).
  exists quote, out, m'. done.
Qed.

End HandlerFacts.

(** *** The Broadcaster, continued *)

Section BroadcastExtras.
Context {World : Type} `{Collaborators World}.
Implicit Types (m : machine World).

Lemma new_events_app m m' new : trace m' = trace m ++ new -> new_events m m' = new.
Proof. intros Htr. unfold new_events. rewrite Htr. apply drop_app_length. Qed.

Lemma deliver_one_quiet message chat_id m :
  exists new m',
    try_except (send_message chat_id message)
               (fun e => emit (LogFailedToSend chat_id e)) m = (Return tt, m')
    /\ trace m' = trace m ++ new
    /\ provider_calls new = [] /\ replies new = [] /\ groq_errors new = [].
Proof.
  unfold try_except, send_message, emit.
  destruct (bot_send_message chat_id message (world m)) as [[[]|e] w]; simpl.
  - eexists [SendMessage chat_id message (Return tt)], _. repeat split.
  - eexists [SendMessage chat_id message (Raise e); LogFailedToSend chat_id e], _.
    simpl. rewrite <- app_assoc. repeat split.
Qed.

Lemma deliver_all_quiet message subs m :
  exists new m',
    for_in subs (fun chat_id =>
                   try_except (send_message chat_id message)
                              (fun e => emit (LogFailedToSend chat_id e))) m
    = (Return tt, m')
    /\ trace m' = trace m ++ new
    /\ provider_calls new = [] /\ replies new = [] /\ groq_errors new = [].
Proof.
  revert m. induction subs as [|chat_id subs IH]; intros m.
  - exists [], m. rewrite app_nil_r. repeat split.
  - simpl. unfold bind.
    destruct (deliver_one_quiet message chat_id m)
      as (new1 & m1 & -> & Htr1 & Hp1 & Hr1 & He1).
    destruct (IH m1) as (new2 & m2 & -> & Htr2 & Hp2 & Hr2 & He2).
    exists (new1 ++ new2), m2.
    rewrite provider_calls_app, replies_app, groq_errors_app.
    rewrite Htr2, Htr1, Hp1, Hp2, Hr1, Hr2, He1, He2, <- app_assoc.
    repeat split.
Qed.

Lemma send_daily_messages_quiet m :
  exists new m',
    send_daily_messages m = (Return tt, m')
    /\ trace m' = trace m ++ new
    /\ provider_calls new = [] /\ replies new = [] /\ groq_errors new = [].
Proof.
  unfold send_daily_messages, bind.
  destruct (random_choice_quote m) as (quote & w & -> & _).
  unfold get_subscribers. cbv beta iota zeta.
  unfold emit at 1. cbv beta iota zeta.
  match goal with |- context [for_in ?l _ ?m1] =>
    destruct (deliver_all_quiet (daily_message quote) l m1)
      as (new & m' & -> & Htr & Hp & Hr & He) end.
  simpl in Htr. rewrite <- app_assoc in Htr.
  eexists _, m'. split; [reflexivity|]. split; [exact Htr|].
  split; [exact Hp|]. split; [exact Hr|exact He].
Qed.

(** A broadcast cycle only delivers: it never asks the provider, never
    answers an update, and writes no "Groq error" line. *)
Theorem broadcast_only_delivers m :
  provider_calls (new_events m (send_daily_messages m).2) = []
  /\ replies (new_events m (send_daily_messages m).2) = []
  /\ groq_errors (new_events m (send_daily_messages m).2) = [].
Proof.
  destruct (send_daily_messages_quiet m) as (new & m' & -> & Htr & Hquiet).
  simpl. by rewrite (new_events_app _ _ _ Htr).
Qed.

(** With the table in its key order, a cycle tries every subscriber
    exactly once: the ids of the attempts are those of the table, none
    twice. *)
Theorem broadcast_tries_each_subscriber_once m :
  table_ok (subscribers m) ->
  let ids := map fst (attempts (new_events m (send_daily_messages m).2)) in
  NoDup ids /\ forall k, k ∈ ids <-> k ∈ members (subscribers m).
Proof.
  intros Hs.
  destruct (send_daily_messages_trace m)
    as (quote & new & m' & -> & _ & Htr & _ & _ & Hatt & _).
  simpl. rewrite (new_events_app _ _ _ Htr).
  change (attempts (LogSending ?n :: new)) with (attempts new).
  rewrite Hatt, map_map. simpl. rewrite map_id.
  split; [by apply table_ok_NoDup|].
  intros k. unfold members. by rewrite elem_of_list_to_set.
Qed.

(** With no subscribers a cycle logs the count 0 and does nothing else. *)
Theorem broadcast_with_no_subscribers m :
  subscribers m = [] ->
  exists m',
    send_daily_messages m = (Return tt, m')
    /\ trace m' = trace m ++ [LogSending 0]
    /\ subscribers m' = [] /\ USER_CONTEXT m' = USER_CONTEXT m.
Proof.
  intros Hempty. unfold send_daily_messages, bind.
  destruct (random_choice_quote m) as (quote & w & -> & _).
  unfold get_subscribers. cbv beta iota zeta.
  unfold emit at 1. cbv beta iota zeta. simpl. rewrite Hempty. simpl.
  eexists. split; [reflexivity|]. done.
Qed.

End BroadcastExtras.

(** *** All handlers together *)

Section WholeBot.
Context {World : Type} `{Collaborators World}.
Implicit Types (m : machine World) (key : option string) (u : update).

Lemma buffer_ok_same_context m m' :
  USER_CONTEXT m' = USER_CONTEXT m -> buffer_ok m -> buffer_ok m'.
Proof. intros Hctx Hm id h. rewrite Hctx. apply Hm. Qed.

Lemma chat_with_groq_buffer_ok key chat_id user_message m :
  buffer_ok m -> buffer_ok (chat_with_groq key chat_id user_message m).2.
Proof.
  intros Hm. destruct (groq_client key) as [g|] eqn:Hk.
  - rewrite (chat_with_groq_configured key g) by done.
    intros id h. simpl. rewrite <- slice_history.
    destruct (decide (id = chat_id)) as [->|Hne].
    + rewrite lookup_insert_eq. intros [= <-]. apply history_ok_slice.
      pose proof (history_ok_get m chat_id Hm) as Hok.
      unfold history_ok in Hok. by repeat (apply andb_prop in Hok as [Hok _]).
    + rewrite lookup_insert_ne by done. apply Hm.
  - by rewrite chat_with_groq_unconfigured.
Qed.

Lemma chat_with_groq_events key chat_id user_message m :
  exists new,
    trace (chat_with_groq key chat_id user_message m).2 = trace m ++ new
    /\ subscribers (chat_with_groq key chat_id user_message m).2 = subscribers m
    /\ attempts new = [] /\ replies new = [].
Proof.
  destruct (groq_client key) as [g|] eqn:Hk.
  - rewrite (chat_with_groq_configured key g) by done. simpl.
    eexists. split; [reflexivity|]. split; [reflexivity|].
    unfold error_log. by destruct (read_reply _).
  - rewrite chat_with_groq_unconfigured by done. exists []. simpl.
    by rewrite app_nil_r.
Qed.

(** What [text_handler] leaves behind, in its two cases. *)
Lemma text_handler_cases key chat_id text m :
  (text_handler key chat_id text m).2 = m
  \/ exists input reply out,
       (chat_with_groq key chat_id input m).1 = Return reply
       /\ USER_CONTEXT (text_handler key chat_id text m).2
          = USER_CONTEXT (chat_with_groq key chat_id input m).2
       /\ subscribers (text_handler key chat_id text m).2 = subscribers m
       /\ trace (text_handler key chat_id text m).2
          = trace (chat_with_groq key chat_id input m).2
            ++ [ReplyText chat_id reply out].
Proof.
  unfold text_handler. cbv zeta.
  match goal with |- context [truthy (strip ?t)] => generalize (strip t) end.
  intros t. destruct (truthy t); simpl; [|by left].
  right. unfold bind.
  destruct (chat_with_groq_returns key chat_id t m) as [reply Hr].
  destruct (chat_with_groq_events key chat_id t m) as (new & _ & Hsubs & _).
  exists t, reply.
  destruct (chat_with_groq key chat_id t m) as [r m1]. simpl in *. subst r.
  rewrite reply_text_run. simpl. eauto.
Qed.

(** Each handler keeps to its own part of the state.  Handling an update
    never starts a delivery of the broadcast kind, sends at most one reply
    and only to the chat the update came from; only [text_handler]
    touches the Context Buffer or asks the provider; only [subscribe] and
    [unsubscribe] touch the table. *)
Theorem handlers_keep_to_their_state key r u m :
  let m' := (dispatch key r u m).2 in
  attempts (new_events m m') = []
  /\ (length (replies (new_events m m')) <= 1)%nat
  /\ (forall p, p ∈ replies (new_events m m') -> p.1 = effective_chat_id u)
  /\ (r ≠ ToText ->
      USER_CONTEXT m' = USER_CONTEXT m /\ provider_calls (new_events m m') = [])
  /\ (r ≠ ToSubscribe -> r ≠ ToUnsubscribe -> subscribers m' = subscribers m).
Proof.
  assert (Hone : forall text out m0 (tr : list event),
             tr = trace m0 ++ [ReplyText (effective_chat_id u) text out] ->
             attempts (drop (length (trace m0)) tr) = []
             /\ (length (replies (drop (length (trace m0)) tr)) <= 1)%nat
             /\ (forall p, p ∈ replies (drop (length (trace m0)) tr) ->
                           p.1 = effective_chat_id u)
             /\ provider_calls (drop (length (trace m0)) tr) = []).
  { intros text out m0 tr ->. rewrite drop_app_length. simpl.
    split; [done|]. split; [lia|]. split; [|done].
    intros p Hp. by apply list_elem_of_singleton in Hp as ->. }
  unfold new_events. destruct r; simpl.
  - unfold start. rewrite reply_text_run. simpl.
    destruct (Hone (start_text (user_first_name u))
                   (message_reply_text (effective_chat_id u)
                      (start_text (user_first_name u)) (world m)).1 m _ eq_refl)
      as (? & ? & ? & ?). done.
  - unfold help_cmd, start. rewrite reply_text_run. simpl.
    destruct (Hone (start_text (user_first_name u))
                   (message_reply_text (effective_chat_id u)
                      (start_text (user_first_name u)) (world m)).1 m _ eq_refl)
      as (? & ? & ? & ?). done.
  - destruct (sqlite_int (effective_chat_id u)
              && utf8_encodable (user_first_name u)) eqn:Hok.
    + apply andb_prop in Hok as [Hk Hn].
      destruct (subscribe_run u m Hk Hn) as (out & m' & -> & Htr & Hctx & _).
      simpl. destruct (Hone _ _ m _ Htr) as (? & ? & ? & ?). done.
    + destruct (subscribe_raises u m Hok) as [e ->]. simpl. rewrite drop_all.
      simpl. repeat split; try done; try lia.
      intros p Hp. by apply elem_of_nil in Hp.
  - destruct (sqlite_int (effective_chat_id u)) eqn:Hk.
    + destruct (unsubscribe_run u m Hk) as (out & m' & -> & Htr & Hctx & _).
      simpl. destruct (Hone _ _ m _ Htr) as (? & ? & ? & ?). done.
    + rewrite (unsubscribe_raises u m Hk). simpl. rewrite drop_all.
      simpl. repeat split; try done; try lia.
      intros p Hp. by apply elem_of_nil in Hp.
  - destruct (quote_cmd_run u m) as (quote & out & m' & -> & Htr & Hsubs & Hctx & _).
    simpl. destruct (Hone _ _ m _ Htr) as (? & ? & ? & ?). done.
  - destruct (text_handler_cases key (effective_chat_id u) (message_text u) m)
      as [->|(input & reply & out & _ & _ & Hsubs & Htr)].
    + rewrite drop_all. simpl. repeat split; try done; try lia.
      intros p Hp. by apply elem_of_nil in Hp.
    + destruct (chat_with_groq_events key (effective_chat_id u) input m)
        as (new & Htr1 & _ & Hatt & Hrep).
      rewrite Htr, Htr1, <- app_assoc, drop_app_length.
      rewrite attempts_app, replies_app, Hatt, Hrep. simpl.
      split; [done|]. split; [lia|]. split; [|done].
      intros p Hp. by apply list_elem_of_singleton in Hp as ->.
Qed.

End WholeBot.

Section Invariants.
Context {World : Type} `{Collaborators World}.
Implicit Types (m : machine World) (key : option string).

Lemma react_keeps_invariants key s m :
  buffer_ok m -> table_ok (subscribers m) ->
  buffer_ok (react key s m).2 /\ table_ok (subscribers (react key s m).2).
Proof.
  intros Hb Ht. destruct s as [r u|]; simpl.
  - destruct r; simpl.
    + unfold start. rewrite reply_text_run. simpl.
      split; [by eapply buffer_ok_same_context|done].
    + unfold help_cmd, start. rewrite reply_text_run. simpl.
      split; [by eapply buffer_ok_same_context|done].
    + destruct (sqlite_int (effective_chat_id u)
                && utf8_encodable (user_first_name u)) eqn:Hok.
      * apply andb_prop in Hok as [Hk Hn].
        destruct (subscribe_run u m Hk Hn) as (out & m' & -> & _ & Hctx & Hsubs).
        simpl. split; [by eapply buffer_ok_same_context|].
        rewrite Hsubs. by apply insert_or_ignore_sorted.
      * by destruct (subscribe_raises u m Hok) as [e ->].
    + destruct (sqlite_int (effective_chat_id u)) eqn:Hk.
      * destruct (unsubscribe_run u m Hk) as (out & m' & -> & _ & Hctx & Hsubs).
        simpl. split; [by eapply buffer_ok_same_context|].
        rewrite Hsubs. by apply delete_where_sorted.
      * by rewrite (unsubscribe_raises u m Hk).
    + destruct (quote_cmd_run u m) as (quote & out & m' & -> & _ & Hsubs & Hctx & _).
      simpl. split; [by eapply buffer_ok_same_context|by rewrite Hsubs].
    + destruct (text_handler_cases key (effective_chat_id u) (message_text u) m)
        as [->|(input & reply & out & _ & Hctx & Hsubs & _)]; [done|].
      split; [|by rewrite Hsubs].
      eapply buffer_ok_same_context; [exact Hctx|].
      by apply chat_with_groq_buffer_ok.
  - destruct (send_daily_messages_trace m)
      as (quote & new & m' & -> & _ & _ & Hctx & Hsubs & _).
    simpl. split; [by eapply buffer_ok_same_context|by rewrite Hsubs].
Qed.

(** The two invariants hold for the life of the process.  From a state
    whose histories are whole pairs of at most [MAX_HISTORY*2] turns and
    whose table is in strictly increasing key order (the state at start-up
    is one), any sequence of updates and daily jobs, failed ones included,
    leads to such a state again; in particular no chat is ever in the table
    twice. *)
Theorem bot_keeps_its_invariants key ss m :
  buffer_ok m -> table_ok (subscribers m) ->
  buffer_ok (run_steps key ss m)
  /\ table_ok (subscribers (run_steps key ss m))
  /\ NoDup (select_chat_id (subscribers (run_steps key ss m))).
Proof.
  intros Hb Ht.
  assert (Hinv : buffer_ok (run_steps key ss m)
                 /\ table_ok (subscribers (run_steps key ss m))).
  { revert m Hb Ht. induction ss as [|s ss IH]; intros m Hb Ht; [done|].
    simpl. destruct (react_keeps_invariants key s m Hb Ht) as [Hb' Ht'].
    by apply IH. }
  destruct Hinv as [Hb' Ht']. split; [done|]. split; [done|].
  by apply table_ok_NoDup.
Qed.

End Invariants.

(** ** The further properties on concrete runs *)

Module MoreRuns.
Import Demo DemoRuns.



Lemma chat_with_groq_effects_witness :
  (exists reply new m',
     chat_with_groq key 1 (lit "boom") start = (Return reply, m')
     /\ provider_calls new = [groq_request [] (lit "boom")])
  /\ chat_with_groq (Some "") 1 hi start = (Return REPLY_UNAVAILABLE, start).
Proof.
  split.
  - destruct (chat_with_groq_effects key 1 (lit "boom") start)
      as (reply & new & m' & Hrun & Htr & Hsubs & Hatt & Hrep & Hcalls & Hrest).
    exists reply, new, m'. split; [exact Hrun|].
    exact (Hcalls demo_client eq_refl).
  - destruct (chat_with_groq_effects (Some "") 1 hi start)
      as (reply & new & m' & Hrun & Htr & Hsubs & Hatt & Hrep & Hcalls & Hlen
          & Herr & Hnone).
    destruct (Hnone (or_intror eq_refl)) as [_ Hm]. rewrite Hrun, Hm.
    vm_compute in Hrun. injection Hrun as Hreply _. by rewrite <- Hreply.
Defined.

Lemma provider_request_is_bounded_witness :
  buffer_ok start
  /\ Z.of_nat (length (req_messages (groq_request [] hi))) <= MAX_HISTORY * 2 + 2.
Proof.
  assert (Hb : buffer_ok start).
  { intros id h Hh. simpl in Hh. by rewrite lookup_empty in Hh. }
  split; [exact Hb|].
  apply (provider_request_is_bounded key 1 hi start (groq_request [] hi) Hb).
  vm_compute. apply list_elem_of_singleton. reflexivity.
Defined.

Lemma history_after_one_call_witness :
  exists reply m',
    chat_with_groq key 1 hi start = (Return reply, m')
    /\ get_history m' 1 = [(User, hi); (Assistant, reply)].
Proof.
  destruct (history_after_one_call key demo_client 1 hi start eq_refl)
    as (reply & m' & Hrun & _ & Hroom & _).
  exists reply, m'. split; [exact Hrun|]. apply Hroom. vm_compute. discriminate.
Defined.

Lemma other_chats_leave_history_alone_witness :
  get_history (chat_all key seven_calls start).2 2 = get_history start 2.
Proof.
  apply other_chats_leave_history_alone. intros c Hc.
  unfold seven_calls in Hc. apply list_elem_of_fmap in Hc as (k & -> & _).
  discriminate.
Defined.

Lemma short_runs_lose_nothing_witness :
  exists log m',
    chat_all key (take 3 seven_calls) start = (Return log, m')
    /\ get_history m' 1 = flat_map exchange_turns (exchanges_of 1 log).
Proof.
  destruct (short_runs_lose_nothing key demo_client (take 3 seven_calls) start 1
              eq_refl) as (log & m' & Hrun & Hfit).
  exists log, m'. split; [exact Hrun|]. apply Hfit.
  vm_compute in Hrun. injection Hrun as <- _. vm_compute. discriminate.
Defined.

Lemma unsubscribe_removes_then_confirms_witness :
  (exists out m',
     unsubscribe (Update 20 hi None) three_subscribers = (out, m')
     /\ (20 ∉ members (subscribers m'))
     /\ (10 ∈ members (subscribers m')))
  /\ unsubscribe (Update (- 2 ^ 63 - 1) hi None) three_subscribers
     = (Raise OverflowError, three_subscribers).
Proof.
  destruct (unsubscribe_removes_then_confirms (Update 20 hi None) three_subscribers)
    as [Hok _].
  destruct (unsubscribe_removes_then_confirms (Update (- 2 ^ 63 - 1) hi None)
              three_subscribers) as [_ Hbad].
  split; [|exact (Hbad eq_refl)].
  destruct (Hok eq_refl) as (out & m' & Hrun & Hmem & _).
  exists out, m'. split; [exact Hrun|]. rewrite Hmem. simpl.
  assert (Hin : 10 ∈ members (subscribers three_subscribers)).
  { vm_compute. set_solver. }
  set_solver.
Defined.

Lemma broadcast_tries_each_subscriber_once_witness :
  table_ok (subscribers three_subscribers)
  /\ NoDup (map fst (attempts (new_events three_subscribers
                                 (send_daily_messages three_subscribers).2))).
Proof.
  assert (Hs : table_ok (subscribers three_subscribers)).
  { apply (run_ops_table_ok _ start). constructor. }
  split; [exact Hs|].
  apply (broadcast_tries_each_subscriber_once three_subscribers Hs).
Defined.

Lemma broadcast_with_no_subscribers_witness :
  exists m', send_daily_messages start = (Return tt, m')
             /\ trace m' = [LogSending 0].
Proof.
  destruct (broadcast_with_no_subscribers start eq_refl) as (m' & Hrun & Htr & _).
  exists m'. split; [exact Hrun|exact Htr].
Defined.

Lemma handlers_keep_to_their_state_witness :
  USER_CONTEXT (dispatch key ToSubscribe (Update 40 hi None) three_subscribers).2
  = USER_CONTEXT three_subscribers
  /\ subscribers (dispatch key ToQuote (Update 40 hi None) three_subscribers).2
     = subscribers three_subscribers
  /\ subscribers (dispatch key ToText (Update 40 hi (Some hi)) three_subscribers).2
     = subscribers three_subscribers.
Proof.
  split; [|split].
  - apply (handlers_keep_to_their_state key ToSubscribe (Update 40 hi None)
             three_subscribers). discriminate.
  - apply (handlers_keep_to_their_state key ToQuote (Update 40 hi None)
             three_subscribers); discriminate.
  - apply (handlers_keep_to_their_state key ToText (Update 40 hi (Some hi))
             three_subscribers); discriminate.
Defined.

End MoreRuns.

Module FlakyRuns.
Import Flaky.

Lemma text_handler_ignores_blank_witness :
  text_handler Demo.key 8 (message_text blank_from_bob) start = (Return tt, start)
  /\ text_handler Demo.key 8 None start = (Return tt, start).
Proof.
  split.
  - apply text_handler_ignores_blank. intros s [= <-]. reflexivity.
  - apply text_handler_ignores_blank. intros s Hs. discriminate Hs.
Defined.

Lemma text_handler_replies_once_witness :
  (text_handler Demo.key 7 (Some (lit "  hi  ")) start).1
  = Raise (External "forbidden")
  /\ get_history (text_handler Demo.key 7 (Some (lit "  hi  ")) start).2 7
     = [(User, DemoRuns.hi); (Assistant, lit "re: hi")].
Proof.
  destruct (text_handler_replies_once Demo.key 7 (lit "  hi  ")
              start)
    as (reply & m1 & out & m' & Hgen & Hrun & Htr & Hctx & Hsubs);
    [vm_compute; discriminate|].
  rewrite Hrun. simpl. unfold get_history. rewrite Hctx.
  vm_compute in Hgen. injection Hgen as <- <-.
  vm_compute in Hrun. injection Hrun as <- _. split; reflexivity.
Defined.


Lemma bot_keeps_its_invariants_witness :
  buffer_ok start /\ table_ok (subscribers start)
  /\ buffer_ok (run_steps Demo.key a_day start)
  /\ NoDup (select_chat_id (subscribers (run_steps Demo.key a_day start))).
Proof.
  assert (Hb : buffer_ok start).
  { intros id h Hh. simpl in Hh. by rewrite lookup_empty in Hh. }
  assert (Ht : table_ok (subscribers start)) by constructor.
  destruct (bot_keeps_its_invariants Demo.key a_day
              start Hb Ht) as (Hb' & _ & Hnd).
  split; [exact Hb|]. split; [exact Ht|]. split; [exact Hb'|exact Hnd].
Defined.

End FlakyRuns.
